(** * Shallow embedding of the N64 emulator core (program.py)

    The Python classes [Memory], [VR4300CPU], [RSP], [RDP], [AudioSystem],
    [InputManager] and [N64Emulator] are translated to records and functions.
    Python integers are unbounded, so every integer is a [Z]; a [bytearray]
    or [bytes] object is a [list byte]; a Python exception is a value of
    [exn]; methods that mutate the emulator live in a state-and-exception
    monad whose state survives a raised exception, as a Python object does. *)

From Stdlib Require Import ZArith Lia List Strings.Byte String.
From stdpp Require Import base option list gmap strings.
Import ListNotations.

Local Open Scope Z_scope.

(** ** Python values used by the program *)

Module Py.

(** The built-in exceptions the program can raise. *)
Inductive exn : Type :=
| KeyError (key : string)
| AttributeError (attr : string)
| OverflowError
| FileNotFoundError (path : string).

Definition result (A : Type) : Type := exn + A.

(** The call ended by raising an exception. *)
Definition raised {A} (r : result A) : Prop := ∃ e, r = inl e.

(** Sequencing of calls: the first exception ends the sequence. *)
#[global] Instance result_ret : MRet result := λ A (a : A), inr a.
#[global] Instance result_bind : MBind result := λ A B (f : A -> result B) (r : result A),
  match r with
  | inr a => f a
  | inl e => inl e
  end.

Definition len {A} (l : list A) : Z := Z.of_nat (length l).

(** Normalisation of one slice bound against a sequence of length [n]:
    a negative bound counts from the end and is clamped at 0, any other
    bound is clamped at [n]. *)
Definition clamp (n i : Z) : Z :=
  if i <? 0 then Z.max 0 (i + n) else Z.min i n.

(** [l[start:stop]] *)
Definition slice {A} (l : list A) (start stop : Z) : list A :=
  let s := clamp (len l) start in
  let e := clamp (len l) stop in
  take (Z.to_nat (e - s)) (drop (Z.to_nat s) l).

(** [l[start:stop] = v] on a mutable sequence: the (possibly empty)
    range is replaced by [v], whatever the length of [v]. *)
Definition slice_assign {A} (l : list A) (start stop : Z) (v : list A) : list A :=
  let s := clamp (len l) start in
  let e := Z.max s (clamp (len l) stop) in
  take (Z.to_nat s) l ++ v ++ drop (Z.to_nat e) l.

Definition byte_val (b : byte) : Z := Z.of_N (Byte.to_N b).

Definition byte_of (z : Z) : byte :=
  match Byte.of_N (Z.to_N z) with
  | Some b => b
  | None => x00
  end.

(** [int.from_bytes(bs, 'big')] *)
Definition from_bytes_big (bs : list byte) : Z :=
  fold_left (fun acc b => acc * 256 + byte_val b) bs 0.

(** [value.to_bytes(4, 'big')]: raises [OverflowError] for a negative
    value and for one that does not fit in four bytes. *)
Definition to_bytes4_big (value : Z) : result (list byte) :=
  if (0 <=? value) && (value <? 2 ^ 32)
  then inr [ byte_of (value / 2 ^ 24);
             byte_of ((value / 2 ^ 16) mod 256);
             byte_of ((value / 2 ^ 8) mod 256);
             byte_of (value mod 256) ]
  else inl OverflowError.

End Py.

Import Py.

(** ** class Memory *)

Module Memory.

(** [ram] is the bytearray created by [__init__]; [rom] is the attribute
    set by [load_cartridge], absent ([None]) until then. *)
Record t : Type := mk { ram : list byte; rom : option (list byte) }.

Definition init (size_bytes : Z) : t :=
  {| ram := replicate (Z.to_nat size_bytes) x00; rom := None |}.

Definition load_cartridge (self : t) (rom_data : list byte) : t :=
  {| ram := ram self; rom := Some rom_data |}.

(** The constant subtracted from a cartridge address. *)
Definition cartridge_base : Z := 0x10000000.

Definition read32 (self : t) (address : Z) : result Z :=
  if address <? len (ram self) then
    inr (from_bytes_big (slice (ram self) address (address + 4)))
  else
    let off := address - 0x10000000 in
    match rom self with
    | Some r => inr (from_bytes_big (slice r off (off + 4)))
    | None => inl (AttributeError "rom")
    end.

Definition write32 (self : t) (address value : Z) : result t :=
  if address <? len (ram self) then
    match to_bytes4_big value with
    | inr bs =>
        inr {| ram := slice_assign (ram self) address (address + 4) bs;
               rom := rom self |}
    | inl e => inl e
    end
  else inr self.

Definition reset (self : t) : t :=
  {| ram := slice_assign (ram self) 0 (len (ram self))
              (replicate (length (ram self)) x00);
     rom := rom self |}.

End Memory.

(** ** Methods as state transformers that may raise

    A method of an object with state [S] is a function from the state to an
    outcome (an exception or a value) and the state it leaves behind: what a
    method mutated before it raised stays mutated. *)

Definition M (S A : Type) : Type := S -> result A * S.

#[global] Instance M_ret {S} : MRet (M S) := λ A (a : A) s, (inr a, s).

#[global] Instance M_bind {S} : MBind (M S) := λ A B (f : A -> M S B) (m : M S A) s,
  match m s with
  | (inr a, s') => f a s'
  | (inl e, s') => (inl e, s')
  end.

Definition get {S} : M S S := λ s, (inr s, s).
Definition put {S} (s : S) : M S unit := λ _, (inr tt, s).
Definition raise {S A} (e : exn) : M S A := λ s, (inl e, s).

(** A computation that cannot touch the state. *)
Definition lift {S A} (r : result A) : M S A := λ s, (r, s).

(** [d[key]] on a dictionary entry that may be absent. *)
Definition getitem {S A} (key : string) (entry : option A) : M S A :=
  match entry with
  | Some v => mret v
  | None => raise (KeyError key)
  end.

(** Running a method of a component held in a field of a larger object. *)
Definition zoom {S T A} (proj : S -> T) (upd : T -> S -> S) (m : M T A) : M S A :=
  λ s, let (r, t) := m (proj s) in (r, upd t s).

(** ** class VR4300CPU

    The field [mem] of the Python object is a reference to the emulator's
    one [Memory]; the methods that use it take that memory as an argument. *)

Module VR4300CPU.

Record t : Type := mk { regs : list Z; pc : Z; cp0 : gmap string Z }.

(** The dictionary built by [get_state] and read by [set_state]. *)
Record dict : Type :=
  Dict { k_regs : option (list Z); k_pc : option Z; k_cp0 : option (gmap string Z) }.

Definition init : t := {| regs := replicate 32 0; pc := 0; cp0 := ∅ |}.

Definition set_regs (r : list Z) (self : t) : t :=
  {| regs := r; pc := pc self; cp0 := cp0 self |}.
Definition set_pc (p : Z) (self : t) : t :=
  {| regs := regs self; pc := p; cp0 := cp0 self |}.
Definition set_cp0 (c : gmap string Z) (self : t) : t :=
  {| regs := regs self; pc := pc self; cp0 := c |}.

Definition reset (self : t) : t :=
  set_pc 0xA4000040 (set_regs (replicate 32 0) self).

Definition _execute (instr : Z) (self : t) : t :=
  let opcode := Z.land (Z.shiftr instr 26) 0x3F in
  if opcode =? 0 then self
  else if (opcode =? 2) || (opcode =? 3) then
    let target := Z.land instr 0x03FFFFFF in
    set_pc (Z.lor (Z.land (pc self) 0xF0000000) (Z.shiftl target 2)) self
  else self.

Definition execute_next_instruction (mem : Memory.t) : M t unit :=
  self ← get;
  instr ← lift (Memory.read32 mem (pc self));
  self ← get;
  put (set_pc (pc self + 4) self);;
  self ← get;
  put (_execute instr self).

Definition get_state (self : t) : dict :=
  {| k_regs := Some (regs self); k_pc := Some (pc self); k_cp0 := Some (cp0 self) |}.

Definition set_state (state : dict) : M t unit :=
  r ← getitem "regs" (k_regs state);
  self ← get; put (set_regs (slice r 0 (len r)) self);;
  p ← getitem "pc" (k_pc state);
  self ← get; put (set_pc p self);;
  self ← get; put (set_cp0 (default ∅ (k_cp0 state)) self).

End VR4300CPU.

(** ** class RSP *)

Module RSP.

Record t : Type := mk { regs : list Z }.
Record dict : Type := Dict { k_regs : option (list Z) }.

Definition init : t := {| regs := replicate 32 0 |}.
Definition reset (self : t) : t := {| regs := replicate 32 0 |}.
Definition process_tasks (self : t) : t := self.
Definition get_state (self : t) : dict := {| k_regs := Some (regs self) |}.
Definition set_state (state : dict) : M t unit :=
  r ← getitem "regs" (k_regs state);
  put {| regs := slice r 0 (len r) |}.

End RSP.

(** ** class RDP *)

Module RDP.

Record t : Type := mk { framebuffer : list byte }.
Record dict : Type := Dict { k_framebuffer : option (list byte) }.

Definition init : t :=
  {| framebuffer := replicate (Z.to_nat (640 * 480 * 4)) x00 |}.
Definition reset (self : t) : t :=
  {| framebuffer := replicate (length (framebuffer self)) x00 |}.
Definition render_if_ready (self : t) : t := self.
Definition get_state (self : t) : dict :=
  {| k_framebuffer := Some (framebuffer self) |}.

(** [fb = state.get("framebuffer")], then [if fb:] is taken for a
    present, non-empty value. *)
Definition set_state (state : dict) (self : t) : t :=
  match k_framebuffer state with
  | Some (b :: fb) =>
      {| framebuffer :=
           slice_assign (framebuffer self) 0 (len (framebuffer self)) (b :: fb) |}
  | Some [] | None => self
  end.

End RDP.

(** ** class AudioSystem *)

Module AudioSystem.

Record t : Type := mk { audio_buffer : list Z }.
Record dict : Type := Dict { k_audio_buffer : option (list Z) }.

Definition init : t := {| audio_buffer := [] |}.
Definition reset (self : t) : t := {| audio_buffer := [] |}.
Definition update_audio (self : t) : t := self.
Definition get_state (self : t) : dict :=
  {| k_audio_buffer := Some (audio_buffer self) |}.
Definition set_state (state : dict) (self : t) : t :=
  {| audio_buffer := default [] (k_audio_buffer state) |}.

End AudioSystem.

(** ** class Controller and class InputManager *)

Module Controller.

Record t : Type :=
  mk { buttons : Z; joystick_x : Z; joystick_y : Z; connected : bool }.
Record dict : Type := Dict { k_buttons : Z; k_x : Z; k_y : Z }.

Definition init : t :=
  {| buttons := 0; joystick_x := 0; joystick_y := 0; connected := true |}.
Definition get_state (self : t) : dict :=
  {| k_buttons := buttons self; k_x := joystick_x self; k_y := joystick_y self |}.

End Controller.

Module InputManager.

Record t : Type := mk { controllers : list Controller.t }.

Definition init (num_controllers : nat) : t :=
  {| controllers := replicate num_controllers Controller.init |}.
Definition poll_inputs (self : t) : t := self.
Definition get_state (self : t) : list Controller.dict :=
  map Controller.get_state (controllers self).
Definition set_state (state_list : list Controller.dict) (self : t) : t := self.

End InputManager.

(** ** class N64Emulator

    The six component objects are created once and never replaced, and the
    one [Memory] is shared by reference with every component: the record
    holds it once. Files are kept in two finite maps, from a path to the
    bytes of a ROM image and from a path to the object that [pickle.dump]
    stored there; [pickle.load] gives back the object that was dumped. A
    state file is thus a dictionary whose entries, where present, have the
    types [save_state] writes; a truncated file, a file that is no pickle
    and a dictionary with entries of other types are outside this model, and
    so are two names for one file. *)

Module N64Emulator.

Record t : Type := mk {
  memory : Memory.t;
  cpu : VR4300CPU.t;
  rsp : RSP.t;
  rdp : RDP.t;
  audio : AudioSystem.t;
  input : InputManager.t;
  running : bool;
  paused : bool
}.

(** The dictionary pickled by [save_state]; a key the file lacks is
    [None]. *)
Record dict : Type := Dict {
  k_cpu : option VR4300CPU.dict;
  k_rsp : option RSP.dict;
  k_rdp : option RDP.dict;
  k_audio : option AudioSystem.dict;
  k_memory : option (list byte);
  k_controllers : option (list Controller.dict)
}.

Definition init : t :=
  {| memory := Memory.init (8 * 1024 * 1024);
     cpu := VR4300CPU.init;
     rsp := RSP.init;
     rdp := RDP.init;
     audio := AudioSystem.init;
     input := InputManager.init 4;
     running := false;
     paused := false |}.

Definition set_memory (x : Memory.t) (self : t) : t :=
  mk x (cpu self) (rsp self) (rdp self) (audio self) (input self)
     (running self) (paused self).
Definition set_cpu (x : VR4300CPU.t) (self : t) : t :=
  mk (memory self) x (rsp self) (rdp self) (audio self) (input self)
     (running self) (paused self).
Definition set_rsp (x : RSP.t) (self : t) : t :=
  mk (memory self) (cpu self) x (rdp self) (audio self) (input self)
     (running self) (paused self).
Definition set_rdp (x : RDP.t) (self : t) : t :=
  mk (memory self) (cpu self) (rsp self) x (audio self) (input self)
     (running self) (paused self).
Definition set_audio (x : AudioSystem.t) (self : t) : t :=
  mk (memory self) (cpu self) (rsp self) (rdp self) x (input self)
     (running self) (paused self).
Definition set_input (x : InputManager.t) (self : t) : t :=
  mk (memory self) (cpu self) (rsp self) (rdp self) (audio self) x
     (running self) (paused self).
Definition set_running (x : bool) (self : t) : t :=
  mk (memory self) (cpu self) (rsp self) (rdp self) (audio self) (input self)
     x (paused self).
Definition set_paused (x : bool) (self : t) : t :=
  mk (memory self) (cpu self) (rsp self) (rdp self) (audio self) (input self)
     (running self) x.

(** A method of a component that cannot raise, run on the component. *)
Definition on {T} (proj : t -> T) (upd : T -> t -> t) (f : T -> T) : M t unit :=
  self ← get; put (upd (f (proj self)) self).

Definition _ensure_big_endian (data : list byte) : list byte := data.

Definition load_rom (files : gmap string (list byte)) (filepath : string) : M t unit :=
  data ← match files !! filepath with
         | Some d => mret d
         | None => raise (FileNotFoundError filepath)
         end;
  let data := _ensure_big_endian data in
  on memory set_memory (λ m, Memory.load_cartridge m data).

(** The body of the [while self.running] loop of [start]. *)
Definition loop_body : M t unit :=
  self ← get;
  if paused self then mret tt
  else
    (self ← get;
     zoom cpu set_cpu (VR4300CPU.execute_next_instruction (memory self)));;
    on rsp set_rsp RSP.process_tasks;;
    on rdp set_rdp RDP.render_if_ready;;
    on input set_input InputManager.poll_inputs;;
    on audio set_audio AudioSystem.update_audio.

(** [start] bounded to [n] passes through its loop. *)
Fixpoint loop (n : nat) : M t unit :=
  match n with
  | O => mret tt
  | S k => self ← get;
           if running self then loop_body;; loop k else mret tt
  end.

Definition start (n : nat) : M t unit :=
  on running set_running (λ _, true);;
  on paused set_paused (λ _, false);;
  loop n.

Definition pause : M t unit := on paused set_paused (λ _, true).
Definition resume : M t unit := on paused set_paused (λ _, false).
Definition stop : M t unit := on running set_running (λ _, false).

Definition reset : M t unit :=
  on cpu set_cpu VR4300CPU.reset;;
  on rsp set_rsp RSP.reset;;
  on rdp set_rdp RDP.reset;;
  on audio set_audio AudioSystem.reset.

Definition state_path (slot_name : string) : string := slot_name +:+ ".state".

Definition get_state (self : t) : dict :=
  {| k_cpu := Some (VR4300CPU.get_state (cpu self));
     k_rsp := Some (RSP.get_state (rsp self));
     k_rdp := Some (RDP.get_state (rdp self));
     k_audio := Some (AudioSystem.get_state (audio self));
     k_memory := Some (Memory.ram (memory self));
     k_controllers := Some (InputManager.get_state (input self)) |}.

(** [save_state] leaves the emulator as it is and writes one file. *)
Definition save_state (slot_name : string) (self : t)
    (pickles : gmap string dict) : gmap string dict :=
  <[state_path slot_name := get_state self]> pickles.

Definition load_state (pickles : gmap string dict) (slot_name : string) : M t unit :=
  state ← match pickles !! state_path slot_name with
          | Some d => mret d
          | None => raise (FileNotFoundError (state_path slot_name))
          end;
  c ← getitem "cpu" (k_cpu state);
  zoom cpu set_cpu (VR4300CPU.set_state c);;
  r ← getitem "rsp" (k_rsp state);
  zoom rsp set_rsp (RSP.set_state r);;
  d ← getitem "rdp" (k_rdp state);
  on rdp set_rdp (RDP.set_state d);;
  a ← getitem "audio" (k_audio state);
  on audio set_audio (AudioSystem.set_state a);;
  m ← getitem "memory" (k_memory state);
  on memory set_memory
     (λ mem, {| Memory.ram := slice_assign (Memory.ram mem) 0 (len (Memory.ram mem)) m;
                Memory.rom := Memory.rom mem |});;
  l ← getitem "controllers" (k_controllers state);
  on input set_input (InputManager.set_state l).

Definition apply_cheat (address value : Z) : M t unit :=
  self ← get;
  m ← lift (Memory.write32 (memory self) address value);
  put (set_memory m self).

(** The outcomes and states observed after each of the next [n] passes
    of the loop, up to and including the first one that raises. *)
Fixpoint trace (n : nat) (self : t) : list (result unit * t) :=
  match n with
  | O => []
  | S k =>
      let r := loop_body self in
      r :: match r.1 with
           | inr _ => trace k r.2
           | inl _ => []
           end
  end.

End N64Emulator.

(** ** Concrete machines and files used in the examples below *)

Module Scenario.

(** A memory of 8 bytes of RAM with a 4-byte cartridge. *)
Definition small_mem : Memory.t :=
  Memory.load_cartridge (Memory.init 8) [x01; x02; x03; x04].

(** A cartridge of 256 MB whose last word is the instruction [j 0]
    (opcode 2, target 0), in the emulator's 8 MB machine, and a processor
    about to fetch that word. *)
Definition far_rom : list byte :=
  replicate (Z.to_nat 0x0FFFFFFC) x00 ++ [x08; x00; x00; x00].
Definition far_mem : Memory.t :=
  Memory.load_cartridge (Memory.init (8 * 1024 * 1024)) far_rom.
Definition far_cpu : VR4300CPU.t := VR4300CPU.set_pc 0x1FFFFFFC VR4300CPU.init.

(** A state file that has a processor section and nothing else. *)
Definition torn : N64Emulator.dict :=
  {| N64Emulator.k_cpu :=
       Some {| VR4300CPU.k_regs := Some (replicate 32 7);
               VR4300CPU.k_pc := Some 0x1234;
               VR4300CPU.k_cp0 := None |};
     N64Emulator.k_rsp := None;
     N64Emulator.k_rdp := None;
     N64Emulator.k_audio := None;
     N64Emulator.k_memory := None;
     N64Emulator.k_controllers := None |}.
Definition torn_pickles : gmap string N64Emulator.dict :=
  <[N64Emulator.state_path "slot1" := torn]> ∅.

End Scenario.

(** ** A small machine

    An emulator with 16 bytes of zeroed RAM, a 4-byte frame buffer and no
    cartridge, in the state a finished [load_state] can leave; and the same
    machine with an 8-byte cartridge whose first word is [j 4]. *)

Module Small.

Definition emu : N64Emulator.t :=
  N64Emulator.mk (Memory.init 16) VR4300CPU.init RSP.init
    (RDP.mk [x00; x00; x00; x00]) AudioSystem.init (InputManager.init 4)
    true false.

Definition cartridge : list byte := [x08; x00; x00; x04; x00; x00; x00; x00].

Definition emu_rom : N64Emulator.t :=
  N64Emulator.set_memory (Memory.load_cartridge (Memory.init 16) cartridge) emu.

(** A state file with sections of the right shape, of which the audio
    section and every later one are missing. *)
Definition no_audio : N64Emulator.dict :=
  {| N64Emulator.k_cpu :=
       Some {| VR4300CPU.k_regs := Some (replicate 32 7);
               VR4300CPU.k_pc := Some 0x1234;
               VR4300CPU.k_cp0 := None |};
     N64Emulator.k_rsp := Some {| RSP.k_regs := Some (replicate 32 1) |};
     N64Emulator.k_rdp := Some {| RDP.k_framebuffer := Some [x01; x02] |};
     N64Emulator.k_audio := None;
     N64Emulator.k_memory := None;
     N64Emulator.k_controllers := None |}.

End Small.

(** Unfolding the plumbing of the monad. *)
Ltac run_method :=
  unfold mbind, M_bind, mret, M_ret, get, put, raise, lift, getitem, zoom,
    N64Emulator.on.

(** ** Facts about slices and big-endian words *)

Section SliceFacts.
Context {A : Type}.
Implicit Types l v : list A.

Lemma len_nonneg l : 0 <= len l.
Proof. unfold len. lia. Qed.

Lemma len_app l1 l2 : len (l1 ++ l2) = len l1 + len l2.
Proof. unfold len. rewrite length_app. lia. Qed.

Lemma clamp_inside n i : 0 <= i <= n -> clamp n i = i.
Proof. unfold clamp. intros H. destruct (Z.ltb_spec i 0); lia. Qed.

Lemma clamp_beyond n i : 0 <= n <= i -> clamp n i = n.
Proof. unfold clamp. intros H. destruct (Z.ltb_spec i 0); lia. Qed.

(** A slice that starts at or after the end of the sequence is empty. *)
Lemma slice_beyond l a b : len l <= a -> slice l a b = [].
Proof.
  intros H. pose proof (len_nonneg l) as Hl. unfold slice.
  rewrite (clamp_beyond _ a) by lia.
  rewrite drop_ge by (unfold len in *; lia).
  by rewrite take_nil.
Qed.

(** Reading back the range that was just assigned. *)
Lemma slice_slice_assign l a b v :
  0 <= a <= len l -> a <= b ->
  slice (slice_assign l a b v) a (a + len v) = v.
Proof.
  intros Ha Hb. unfold slice, slice_assign.
  rewrite (clamp_inside _ a) by lia.
  set (e := Z.max a (clamp (len l) b)).
  assert (Htk : length (take (Z.to_nat a) l) = Z.to_nat a).
  { rewrite length_take. unfold len in Ha. lia. }
  assert (Hlen : a + len v <= len (take (Z.to_nat a) l ++ v ++ drop (Z.to_nat e) l)).
  { rewrite !len_app. unfold len at 2. rewrite Htk.
    pose proof (len_nonneg (drop (Z.to_nat e) l)). lia. }
  rewrite (clamp_inside _ a).
  2:{ split; [lia|]. pose proof (len_nonneg v). lia. }
  rewrite (clamp_inside _ (a + len v)).
  2:{ split; [|lia]. pose proof (len_nonneg v). lia. }
  rewrite (drop_app_length' _ _ _ (eq_sym Htk)).
  apply take_app_length'. unfold len. lia.
Qed.

(** The length of a sequence after an assignment to a range that runs
    to (or past) its end. *)
Lemma len_slice_assign_tail l a b v :
  0 <= a <= len l -> len l <= b ->
  slice_assign l a b v = take (Z.to_nat a) l ++ v.
Proof.
  intros Ha Hb. unfold slice_assign.
  rewrite (clamp_inside _ a) by lia.
  rewrite (clamp_beyond _ b) by lia.
  rewrite Z.max_r by lia.
  rewrite (drop_ge l) by (unfold len; lia).
  by rewrite app_nil_r.
Qed.

End SliceFacts.

Section BytesFacts.

Lemma byte_val_range b : 0 <= byte_val b < 256.
Proof. unfold byte_val. pose proof (Byte.to_N_bounded b). lia. Qed.

Lemma byte_val_byte_of z : 0 <= z < 256 -> byte_val (byte_of z) = z.
Proof.
  intros Hz. unfold byte_val, byte_of.
  destruct (Byte.of_N (Z.to_N z)) as [b|] eqn:E.
  - apply Byte.to_of_N in E. rewrite E. lia.
  - apply Byte.of_N_None_iff in E. lia.
Qed.

Lemma from_bytes_big_4 b0 b1 b2 b3 :
  from_bytes_big [b0; b1; b2; b3]
  = byte_val b0 * 2 ^ 24 + byte_val b1 * 2 ^ 16 + byte_val b2 * 2 ^ 8 + byte_val b3.
Proof. unfold from_bytes_big. simpl fold_left. lia. Qed.

Lemma from_bytes_big_zeros (bs : list byte) :
  Forall (λ b, b = x00) bs -> from_bytes_big bs = 0.
Proof.
  unfold from_bytes_big. intros H.
  assert (G : ∀ acc, acc = 0 ->
            fold_left (λ acc b, acc * 256 + byte_val b) bs acc = 0).
  { induction H as [|b bs -> _ IH]; intros acc ->; [done|].
    simpl. by apply IH. }
  by apply G.
Qed.

(** A word survives the trip through its four big-endian bytes. *)
Lemma to_bytes4_big_inv v :
  0 <= v < 2 ^ 32 ->
  ∃ bs, to_bytes4_big v = inr bs ∧ len bs = 4 ∧ from_bytes_big bs = v.
Proof.
  intros Hv. unfold to_bytes4_big.
  destruct (Z.leb_spec 0 v); [|lia]. destruct (Z.ltb_spec v (2 ^ 32)); [|lia].
  simpl andb. eexists. split; [reflexivity|]. split; [reflexivity|].
  rewrite from_bytes_big_4.
  change (2 ^ 8) with 256. change (2 ^ 16) with (256 * 256).
  change (2 ^ 24) with (256 * 256 * 256).
  rewrite <- !Z.div_div by lia.
  set (q1 := v / 256). set (q2 := q1 / 256). set (q3 := q2 / 256).
  pose proof (Z.div_mod v 256 ltac:(lia)) as E0. fold q1 in E0.
  pose proof (Z.div_mod q1 256 ltac:(lia)) as E1. fold q2 in E1.
  pose proof (Z.div_mod q2 256 ltac:(lia)) as E2. fold q3 in E2.
  pose proof (Z.mod_pos_bound v 256 ltac:(lia)).
  pose proof (Z.mod_pos_bound q1 256 ltac:(lia)).
  pose proof (Z.mod_pos_bound q2 256 ltac:(lia)).
  assert (0 <= q3 < 256) by lia.
  rewrite !byte_val_byte_of by lia. lia.
Qed.

Lemma to_bytes4_big_overflow v :
  ¬ (0 <= v < 2 ^ 32) -> to_bytes4_big v = inl OverflowError.
Proof.
  intros Hv. unfold to_bytes4_big.
  destruct (Z.leb_spec 0 v), (Z.ltb_spec v (2 ^ 32)); simpl; try done; lia.
Qed.

End BytesFacts.

Section MoreSliceFacts.
Context {A : Type}.
Implicit Types l v : list A.

Lemma len_slice_assign_ge l a b v :
  0 <= a <= len l -> a + len v <= len (slice_assign l a b v).
Proof.
  intros Ha. unfold slice_assign. rewrite (clamp_inside _ a) by lia.
  rewrite !len_app. unfold len at 2. rewrite length_take.
  pose proof (len_nonneg (drop (Z.to_nat (Z.max a (clamp (len l) b))) l)).
  unfold len in *. lia.
Qed.

Lemma slice_assign_all l v : slice_assign l 0 (len l) v = v.
Proof.
  pose proof (len_nonneg l).
  rewrite len_slice_assign_tail by lia. by rewrite take_0.
Qed.

Lemma slice_all l : slice l 0 (len l) = l.
Proof.
  pose proof (len_nonneg l). unfold slice.
  rewrite (clamp_inside _ 0), (clamp_inside _ (len l)) by lia.
  rewrite drop_0, take_ge; [done | unfold len; lia].
Qed.

Lemma slice_inside l a n :
  0 <= a -> 0 <= n -> a + n <= len l ->
  slice l a (a + n) = take (Z.to_nat n) (drop (Z.to_nat a) l).
Proof.
  intros Ha Hn Hl. unfold slice.
  rewrite (clamp_inside _ a), (clamp_inside _ (a + n)) by lia.
  do 2 f_equal. lia.
Qed.

(** The four elements of a slice of width four that lies inside the
    sequence. *)
Lemma slice_inside_4 l a :
  0 <= a -> a + 4 <= len l ->
  ∃ x0 x1 x2 x3,
    l !! Z.to_nat a = Some x0 ∧ l !! Z.to_nat (a + 1) = Some x1 ∧
    l !! Z.to_nat (a + 2) = Some x2 ∧ l !! Z.to_nat (a + 3) = Some x3 ∧
    slice l a (a + 4) = [x0; x1; x2; x3].
Proof.
  intros Ha Hl. rewrite slice_inside by lia.
  assert (Hd : (4 <= length (drop (Z.to_nat a) l))%nat).
  { rewrite length_drop. unfold len in Hl. lia. }
  assert (Hk : ∀ k, 0 <= k -> l !! Z.to_nat (a + k) = drop (Z.to_nat a) l !! Z.to_nat k).
  { intros k Hk. rewrite lookup_drop. f_equal. lia. }
  pose proof (Hk 0 ltac:(lia)) as H0. pose proof (Hk 1 ltac:(lia)) as H1.
  pose proof (Hk 2 ltac:(lia)) as H2. pose proof (Hk 3 ltac:(lia)) as H3.
  rewrite Z.add_0_r in H0.
  destruct (drop (Z.to_nat a) l) as [|x0 [|x1 [|x2 [|x3 tl]]]];
    simpl in Hd; try lia.
  exists x0, x1, x2, x3. by rewrite H0, H1, H2, H3.
Qed.

End MoreSliceFacts.

Section MemoryFacts.
Import Memory.
Implicit Types (m : Memory.t) (a v : Z).

Lemma read32_ram m a :
  a < len (ram m) -> read32 m a = inr (from_bytes_big (slice (ram m) a (a + 4))).
Proof. intros H. unfold read32. by destruct (Z.ltb_spec a (len (ram m))); [|lia]. Qed.

Lemma read32_cartridge m r a :
  len (ram m) <= a -> rom m = Some r ->
  read32 m a = inr (from_bytes_big (slice r (a - cartridge_base) (a - cartridge_base + 4))).
Proof.
  intros H Hr. unfold read32.
  destruct (Z.ltb_spec a (len (ram m))); [lia|]. by rewrite Hr.
Qed.

Lemma write32_ram m a v bs :
  a < len (ram m) -> to_bytes4_big v = inr bs ->
  write32 m a v = inr {| ram := slice_assign (ram m) a (a + 4) bs; rom := rom m |}.
Proof.
  intros H Hb. unfold write32.
  destruct (Z.ltb_spec a (len (ram m))); [|lia]. by rewrite Hb.
Qed.

Lemma write32_ignored m a v : len (ram m) <= a -> write32 m a v = inr m.
Proof. intros H. unfold write32. by destruct (Z.ltb_spec a (len (ram m))); [lia|]. Qed.

(** Writing a word at a RAM address and reading that address back,
    whatever the alignment of the address. *)
Lemma write32_then_read32 m a v :
  0 <= a < len (ram m) -> 0 <= v < 2 ^ 32 ->
  ∃ m', write32 m a v = inr m' ∧ read32 m' a = inr v ∧ rom m' = rom m.
Proof.
  intros Ha Hv. destruct (to_bytes4_big_inv v Hv) as (bs & Hbs & Hlen & Hval).
  eexists. split; [apply write32_ram; [lia | exact Hbs]|]. split; [|done].
  pose proof (len_slice_assign_ge (ram m) a (a + 4) bs ltac:(lia)).
  rewrite read32_ram by (simpl; lia). simpl.
  rewrite <- Hlen at 2. rewrite slice_slice_assign by lia. by rewrite Hval.
Qed.

Lemma to_bytes4_big_len v bs : to_bytes4_big v = inr bs -> len bs = 4.
Proof.
  unfold to_bytes4_big. destruct (_ && _); [|done]. by intros [= <-].
Qed.

Lemma write32_ram_len m m' a v :
  0 <= a < len (ram m) -> write32 m a v = inr m' ->
  a + 4 <= len (ram m').
Proof.
  intros Ha. unfold write32.
  destruct (Z.ltb_spec a (len (ram m))); [|lia].
  destruct (to_bytes4_big v) as [|bs] eqn:Hbs; [done|]. intros [= <-].
  simpl. rewrite <- (to_bytes4_big_len v bs Hbs).
  apply len_slice_assign_ge. lia.
Qed.

(** What [Memory.reset] does: RAM keeps its length and holds only zero
    bytes, the ROM stays. *)
Lemma memory_reset_zero m :
  ram (reset m) = replicate (length (ram m)) x00 ∧ rom (reset m) = rom m.
Proof. unfold reset. simpl. by rewrite slice_assign_all. Qed.

End MemoryFacts.


(** ** The model on small inputs *)

Example write32_read32_ex :
  (m ← Memory.write32 (Memory.init 8) 4 0xdeadbeef; Memory.read32 m 4) = inr 0xdeadbeef.
Proof. reflexivity. Qed.

(** A slice bound counted from the end: the word at -8 of an 8-byte
    cartridge is its first word, and a write at -4 inserts instead of
    overwriting because the stop bound 0 lies before the start. *)
Example read32_below_cartridge_ex :
  Memory.read32 (Memory.load_cartridge (Memory.init 8)
                   [x01; x02; x03; x04; x05; x06; x07; x08]) 0x0FFFFFF8
  = inr 0x01020304.
Proof. reflexivity. Qed.

Example write32_negative_ex :
  (m ← Memory.write32 (Memory.init 8) (-4) 0xdeadbeef;
   r ← Memory.read32 m (-4); mret (r, len (Memory.ram m))) = inr (0, 12).
Proof. reflexivity. Qed.

Example read32_no_cartridge_ex :
  Memory.read32 (Memory.init 8) 0x10000000 = inl (AttributeError "rom").
Proof. reflexivity. Qed.

Example write32_overflow_ex : Memory.write32 (Memory.init 8) 0 (2 ^ 32) = inl OverflowError.
Proof. reflexivity. Qed.

Example _execute_jump_ex :
  VR4300CPU.pc (VR4300CPU._execute 0x0C000010 (VR4300CPU.set_pc 0x80000004 VR4300CPU.init))
  = 0x80000040.
Proof. reflexivity. Qed.

Example _execute_other_ex :
  VR4300CPU._execute 0x24020001 VR4300CPU.init = VR4300CPU.init.
Proof. reflexivity. Qed.

(** ** Memory: the claims *)

(** C2. For an address [a] that is a multiple of 4 and lies in RAM
    ([0 <= a < ramSize]) and a 32-bit word [v], [write32(a, v)] succeeds and a
    following [read32(a)] returns [v]. *)
Theorem write32_read32_roundtrip (m : Memory.t) (a v : Z) :
  0 <= a -> a mod 4 = 0 -> a < len (Memory.ram m) -> 0 <= v < 2 ^ 32 ->
  ∃ m', Memory.write32 m a v = inr m' ∧ Memory.read32 m' a = inr v.
Proof.
  intros Ha _ Hlt Hv.
  destruct (write32_then_read32 m a v) as (m' & Hw & Hr & _); [lia | done |].
  by exists m'.
Qed.

Lemma write32_read32_roundtrip_witness :
  ∃ m', Memory.write32 (Memory.init 512) 0x100 0xdeadbeef = inr m'
        ∧ Memory.read32 m' 0x100 = inr 0xdeadbeef.
Proof.
  apply (write32_read32_roundtrip (Memory.init 512) 0x100 0xdeadbeef);
    [lia | reflexivity | vm_compute; reflexivity | lia].
Defined.

(** C10. For an address [a] among the last three of RAM
    ([ramSize - 4 < a < ramSize]) and a word [v], [write32(a, v)] succeeds
    and the slice assignment stores all four big-endian bytes of [v]: RAM is
    then [a + 4] bytes long, longer than before, and every address below
    [a + 4] is served from RAM by a later [read32]. *)
Theorem write32_extends_ram (m : Memory.t) (a v : Z) :
  0 <= a -> len (Memory.ram m) - 4 < a < len (Memory.ram m) -> 0 <= v < 2 ^ 32 ->
  ∃ m' bs,
    Memory.write32 m a v = inr m' ∧
    to_bytes4_big v = inr bs ∧
    Memory.ram m' = take (Z.to_nat a) (Memory.ram m) ++ bs ∧
    len (Memory.ram m') = a + 4 ∧
    len (Memory.ram m) < len (Memory.ram m') ∧
    ∀ b, b < a + 4 ->
      Memory.read32 m' b = inr (from_bytes_big (slice (Memory.ram m') b (b + 4))).
Proof.
  intros Ha Hr Hv. destruct (to_bytes4_big_inv v Hv) as (bs & Hbs & Hlen & _).
  eexists _, bs. split; [apply write32_ram; [lia | exact Hbs]|].
  split; [done|]. simpl Memory.ram.
  rewrite len_slice_assign_tail by lia.
  assert (Hl : len (take (Z.to_nat a) (Memory.ram m) ++ bs) = a + 4).
  { rewrite len_app, Hlen. unfold len in *. rewrite length_take. lia. }
  split; [done|]. split; [done|]. split; [lia|].
  intros b Hb. apply read32_ram. simpl Memory.ram. lia.
Qed.

Lemma write32_extends_ram_witness :
  ∃ m' bs,
    Memory.write32 (Memory.init 16) 14 0xdeadbeef = inr m' ∧
    to_bytes4_big 0xdeadbeef = inr bs ∧
    Memory.ram m' = take (Z.to_nat 14) (Memory.ram (Memory.init 16)) ++ bs ∧
    len (Memory.ram m') = 14 + 4 ∧
    len (Memory.ram (Memory.init 16)) < len (Memory.ram m') ∧
    ∀ b, b < 14 + 4 ->
      Memory.read32 m' b = inr (from_bytes_big (slice (Memory.ram m') b (b + 4))).
Proof.
  apply (write32_extends_ram (Memory.init 16) 14 0xdeadbeef);
    [lia | vm_compute; split; reflexivity | lia].
Defined.

(** C8. With a cartridge loaded, for an address [a] that is served by the
    ROM (not below the end of RAM) at offset [o = a - cartridgeBase] with
    [0 <= o] and [o + 4 <= romSize], [read32(a)] is the big-endian word made
    of the four ROM bytes at offsets [o], [o + 1], [o + 2] and [o + 3]. *)
Theorem read32_rom_word (m0 : Memory.t) (rom_data : list byte) (a : Z) :
  let m := Memory.load_cartridge m0 rom_data in
  let o := a - Memory.cartridge_base in
  len (Memory.ram m) <= a -> 0 <= o -> o + 4 <= len rom_data ->
  ∃ b0 b1 b2 b3,
    rom_data !! Z.to_nat o = Some b0 ∧ rom_data !! Z.to_nat (o + 1) = Some b1 ∧
    rom_data !! Z.to_nat (o + 2) = Some b2 ∧ rom_data !! Z.to_nat (o + 3) = Some b3 ∧
    Memory.read32 m a
    = inr (byte_val b0 * 2 ^ 24 + byte_val b1 * 2 ^ 16 + byte_val b2 * 2 ^ 8 + byte_val b3).
Proof.
  intros m o Hram Ho Hlen.
  destruct (slice_inside_4 rom_data o Ho Hlen) as (b0 & b1 & b2 & b3 & H0 & H1 & H2 & H3 & Hs).
  exists b0, b1, b2, b3. repeat (split; [done|]).
  rewrite (read32_cartridge m rom_data) by done.
  fold o. by rewrite Hs, from_bytes_big_4.
Qed.

Lemma read32_rom_word_witness :
  ∃ b0 b1 b2 b3,
    [x01; x02; x03; x04; x05; x06; x07; x08] !! Z.to_nat 4 = Some b0 ∧
    [x01; x02; x03; x04; x05; x06; x07; x08] !! Z.to_nat (4 + 1) = Some b1 ∧
    [x01; x02; x03; x04; x05; x06; x07; x08] !! Z.to_nat (4 + 2) = Some b2 ∧
    [x01; x02; x03; x04; x05; x06; x07; x08] !! Z.to_nat (4 + 3) = Some b3 ∧
    Memory.read32
      (Memory.load_cartridge (Memory.init 64) [x01; x02; x03; x04; x05; x06; x07; x08])
      0x10000004
    = inr (byte_val b0 * 2 ^ 24 + byte_val b1 * 2 ^ 16 + byte_val b2 * 2 ^ 8 + byte_val b3).
Proof.
  apply (read32_rom_word (Memory.init 64) [x01; x02; x03; x04; x05; x06; x07; x08] 0x10000004);
    vm_compute; congruence.
Defined.

(** C9, as stated, fails: an access at address 1 is served, not rejected. *)
Lemma misaligned_access_not_rejected :
  1 mod 4 ≠ 0 ∧
  Memory.read32 (Memory.init 8) 1 = inr 0 ∧
  ¬ raised (Memory.read32 (Memory.init 8) 1) ∧
  Memory.write32 (Memory.init 8) 1 0xdeadbeef
  = inr {| Memory.ram := [x00; xde; xad; xbe; xef; x00; x00; x00]; Memory.rom := None |} ∧
  ¬ raised (Memory.write32 (Memory.init 8) 1 0xdeadbeef).
Proof.
  split; [done|]. split; [reflexivity|]. split; [intros [e He]; discriminate He|].
  split; [reflexivity|]. intros [e He]; discriminate He.
Qed.

(** C9, amended. [read32] and [write32] do not look at the alignment of the
    address. For an address that is not a multiple of 4: [write32] of a
    32-bit word never raises; [read32] never raises when the address is below
    the end of RAM or a cartridge is loaded; and inside RAM a [write32]
    followed by [read32] of that address gives the word back. *)
Theorem misaligned_access_served (m : Memory.t) (a v : Z) :
  a mod 4 ≠ 0 -> 0 <= v < 2 ^ 32 ->
  ¬ raised (Memory.write32 m a v) ∧
  (a < len (Memory.ram m) ∨ is_Some (Memory.rom m) -> ¬ raised (Memory.read32 m a)) ∧
  (0 <= a < len (Memory.ram m) ->
   ∃ m', Memory.write32 m a v = inr m' ∧ Memory.read32 m' a = inr v).
Proof.
  intros _ Hv. destruct (to_bytes4_big_inv v Hv) as (bs & Hbs & _).
  split; [|split].
  - intros [e He]. destruct (Z.lt_ge_cases a (len (Memory.ram m))) as [Hlt|Hge].
    + by rewrite (write32_ram m a v bs Hlt Hbs) in He.
    + by rewrite write32_ignored in He.
  - intros Hor [e He]. destruct (Z.lt_ge_cases a (len (Memory.ram m))) as [Hlt|Hge].
    + by rewrite read32_ram in He.
    + destruct Hor as [?|[r Hr]]; [lia|].
      by rewrite (read32_cartridge m r) in He.
  - intros Ha. destruct (write32_then_read32 m a v Ha Hv) as (m' & ? & ? & _).
    by exists m'.
Qed.

Lemma misaligned_access_served_witness :
  ¬ raised (Memory.write32 (Memory.init 8) 1 0xdeadbeef) ∧
  (1 < len (Memory.ram (Memory.init 8)) ∨ is_Some (Memory.rom (Memory.init 8)) ->
   ¬ raised (Memory.read32 (Memory.init 8) 1)) ∧
  (0 <= 1 < len (Memory.ram (Memory.init 8)) ->
   ∃ m', Memory.write32 (Memory.init 8) 1 0xdeadbeef = inr m'
         ∧ Memory.read32 m' 1 = inr 0xdeadbeef).
Proof.
  apply (misaligned_access_served (Memory.init 8) 1 0xdeadbeef); [done | lia].
Defined.

(** C5, as stated, fails: address 0x20000000 is neither in the 8 bytes of
    RAM nor in the 4 bytes of the ROM window, yet [read32] returns 0 and
    [write32] returns normally with nothing changed. *)
Lemma unmapped_access_not_rejected :
  ¬ (0x20000000 < len (Memory.ram Scenario.small_mem)) ∧
  ¬ (Memory.cartridge_base <= 0x20000000 < Memory.cartridge_base + 4) ∧
  Memory.rom Scenario.small_mem = Some [x01; x02; x03; x04] ∧
  Memory.read32 Scenario.small_mem 0x20000000 = inr 0 ∧
  Memory.write32 Scenario.small_mem 0x20000000 0xdeadbeef = inr Scenario.small_mem.
Proof.
  split; [vm_compute; congruence|]. split; [unfold Memory.cartridge_base; lia|].
  repeat split; reflexivity.
Qed.

(** C5, amended. No access fails for being out of range. A [write32] to
    any address at or above the end of RAM, in the ROM window or not, is
    ignored and leaves the memory as it was; with a cartridge loaded, a
    [read32] of an address at or above the end of RAM and at or above the end
    of the ROM window returns 0. *)
Theorem out_of_range_access_ignored (m : Memory.t) (a v : Z) :
  len (Memory.ram m) <= a ->
  Memory.write32 m a v = inr m ∧
  ∀ r, Memory.rom m = Some r -> Memory.cartridge_base + len r <= a ->
       Memory.read32 m a = inr 0.
Proof.
  intros Ha. split; [by apply write32_ignored|].
  intros r Hr Hr'. rewrite (read32_cartridge m r) by done.
  rewrite slice_beyond by lia. reflexivity.
Qed.

Lemma out_of_range_access_ignored_witness :
  Memory.write32 Scenario.small_mem 0x20000000 0xdeadbeef = inr Scenario.small_mem ∧
  ∀ r, Memory.rom Scenario.small_mem = Some r ->
       Memory.cartridge_base + len r <= 0x20000000 ->
       Memory.read32 Scenario.small_mem 0x20000000 = inr 0.
Proof.
  apply (out_of_range_access_ignored Scenario.small_mem 0x20000000 0xdeadbeef).
  vm_compute. congruence.
Defined.

(** ** The processor *)

Section CPUFacts.
Import VR4300CPU.

(** One step when the fetch succeeds: the counter is advanced, then the
    fetched word is executed. *)
Lemma execute_next_instruction_fetch (mem : Memory.t) (c : VR4300CPU.t) (instr : Z) :
  Memory.read32 mem (pc c) = inr instr ->
  execute_next_instruction mem c = (inr tt, _execute instr (set_pc (pc c + 4) c)).
Proof.
  intros H. unfold execute_next_instruction, mbind, M_bind, get, lift, put.
  by rewrite H.
Qed.

(** A failed fetch leaves the processor as it was. *)
Lemma execute_next_instruction_fault (mem : Memory.t) (c : VR4300CPU.t) (e : exn) :
  Memory.read32 mem (pc c) = inl e ->
  execute_next_instruction mem c = (inl e, c).
Proof.
  intros H. unfold execute_next_instruction, mbind, M_bind, get, lift, put.
  by rewrite H.
Qed.

Lemma _execute_jump (instr : Z) (c : VR4300CPU.t) :
  Z.land (Z.shiftr instr 26) 0x3F = 2 ∨ Z.land (Z.shiftr instr 26) 0x3F = 3 ->
  _execute instr c
  = set_pc (Z.lor (Z.land (pc c) 0xF0000000) (Z.shiftl (Z.land instr 0x03FFFFFF) 2)) c.
Proof. intros [H|H]; unfold _execute; by rewrite H. Qed.

(** The last word of a sequence, read as a slice of width four. *)
Lemma slice_last_word (pre w : list byte) :
  len w = 4 -> slice (pre ++ w) (len pre) (len pre + 4) = w.
Proof.
  intros Hw. pose proof (len_nonneg pre).
  rewrite slice_inside by (rewrite ?len_app; lia).
  unfold len. rewrite Nat2Z.id, drop_app_length.
  apply take_ge. unfold len in Hw. lia.
Qed.

End CPUFacts.

(** Reading the last word of a cartridge whose length puts that word at
    the address read. *)
Lemma read32_last_rom_word (ram pre w : list byte) (a : Z) :
  len ram <= a -> len pre = a - Memory.cartridge_base -> len w = 4 ->
  Memory.read32 {| Memory.ram := ram; Memory.rom := Some (pre ++ w) |} a
  = inr (from_bytes_big w).
Proof.
  intros Hram Hpre Hw.
  rewrite (read32_cartridge _ (pre ++ w)) by done.
  rewrite <- Hpre. by rewrite slice_last_word.
Qed.

Lemma far_fetch : Memory.read32 Scenario.far_mem 0x1FFFFFFC = inr 0x08000000.
Proof.
  apply (read32_last_rom_word (replicate (Z.to_nat (8 * 1024 * 1024)) x00)
           (replicate (Z.to_nat 0x0FFFFFFC) x00) [x08; x00; x00; x00] 0x1FFFFFFC).
  - unfold len. rewrite length_replicate, Z2Nat.id; lia.
  - unfold len. rewrite length_replicate, Z2Nat.id; [reflexivity | lia].
  - reflexivity.
Qed.

(** C1, as stated, fails. The word at 0x1FFFFFFC is a jump with target
    field 0; the counter is 0x1FFFFFFC when it is fetched, and the step ends
    with the counter at 0x20000000, not at
    [(0x1FFFFFFC & 0xF0000000) | (0 << 2)], which is 0x10000000. *)
Lemma jump_region_not_from_fetch_counter :
  VR4300CPU.pc Scenario.far_cpu = 0x1FFFFFFC ∧
  Memory.read32 Scenario.far_mem (VR4300CPU.pc Scenario.far_cpu) = inr 0x08000000 ∧
  Z.land (Z.shiftr 0x08000000 26) 0x3F = 2 ∧
  Z.land 0x08000000 0x03FFFFFF = 0 ∧
  (VR4300CPU.execute_next_instruction Scenario.far_mem Scenario.far_cpu).1 = inr tt ∧
  VR4300CPU.pc (VR4300CPU.execute_next_instruction Scenario.far_mem Scenario.far_cpu).2
  = 0x20000000 ∧
  VR4300CPU.pc (VR4300CPU.execute_next_instruction Scenario.far_mem Scenario.far_cpu).2
  ≠ Z.lor (Z.land 0x1FFFFFFC 0xF0000000) (Z.shiftl 0 2).
Proof.
  split; [reflexivity|]. split; [exact far_fetch|].
  split; [reflexivity|]. split; [reflexivity|].
  rewrite (execute_next_instruction_fetch Scenario.far_mem Scenario.far_cpu _ far_fetch).
  split; [reflexivity|]. split; [reflexivity|]. by vm_compute.
Qed.

(** C1, amended. A step that fetches an absolute jump (opcode 2 or 3) with
    target field [t], the counter being [p] at the fetch, ends with the
    counter at [((p + 4) & 0xF0000000) | (t << 2)]: the region bits are
    those of the counter after it was advanced. When [p + 4] has the region
    bits of [p], this is [(p & 0xF0000000) | (t << 2)]. Nothing else in the
    processor changes. *)
Theorem jump_sets_counter (mem : Memory.t) (c : VR4300CPU.t) (instr : Z) :
  let p := VR4300CPU.pc c in
  let t := Z.land instr 0x03FFFFFF in
  Memory.read32 mem p = inr instr ->
  Z.land (Z.shiftr instr 26) 0x3F = 2 ∨ Z.land (Z.shiftr instr 26) 0x3F = 3 ->
  ∃ c', VR4300CPU.execute_next_instruction mem c = (inr tt, c') ∧
        VR4300CPU.pc c' = Z.lor (Z.land (p + 4) 0xF0000000) (Z.shiftl t 2) ∧
        (Z.land (p + 4) 0xF0000000 = Z.land p 0xF0000000 ->
         VR4300CPU.pc c' = Z.lor (Z.land p 0xF0000000) (Z.shiftl t 2)) ∧
        VR4300CPU.regs c' = VR4300CPU.regs c ∧ VR4300CPU.cp0 c' = VR4300CPU.cp0 c.
Proof.
  intros p t Hfetch Hop. eexists. split.
  - rewrite (execute_next_instruction_fetch mem c instr Hfetch).
    by rewrite _execute_jump.
  - unfold p, t. simpl. repeat split; try done. intros H. congruence.
Qed.

Lemma jump_sets_counter_witness :
  ∃ c', VR4300CPU.execute_next_instruction
          (Memory.load_cartridge (Memory.init 8) [x0c; x00; x00; x10])
          (VR4300CPU.set_pc 0x10000000 VR4300CPU.init) = (inr tt, c') ∧
        VR4300CPU.pc c' = Z.lor (Z.land (0x10000000 + 4) 0xF0000000) (Z.shiftl 0x10 2) ∧
        (Z.land (0x10000000 + 4) 0xF0000000 = Z.land 0x10000000 0xF0000000 ->
         VR4300CPU.pc c' = Z.lor (Z.land 0x10000000 0xF0000000) (Z.shiftl 0x10 2)) ∧
        VR4300CPU.regs c' = VR4300CPU.regs (VR4300CPU.set_pc 0x10000000 VR4300CPU.init) ∧
        VR4300CPU.cp0 c' = VR4300CPU.cp0 (VR4300CPU.set_pc 0x10000000 VR4300CPU.init).
Proof.
  apply (jump_sets_counter (Memory.load_cartridge (Memory.init 8) [x0c; x00; x00; x10])
           (VR4300CPU.set_pc 0x10000000 VR4300CPU.init) 0x0c000010);
    [reflexivity | right; reflexivity].
Defined.

(** ** The emulator *)

Section EmulatorFacts.
Import N64Emulator.
Implicit Types (e : N64Emulator.t) (a v : Z).

Lemma set_memory_same e : set_memory (memory e) e = e.
Proof. by destruct e. Qed.

Lemma init_ram_len : len (Memory.ram (memory init)) = 8 * 1024 * 1024.
Proof.
  change (len (replicate (Z.to_nat (8 * 1024 * 1024)) x00) = 8 * 1024 * 1024).
  unfold len. rewrite length_replicate. apply Z2Nat.id. lia.
Qed.

Lemma apply_cheat_run e a v :
  apply_cheat a v e
  = match Memory.write32 (memory e) a v with
    | inr m => (inr tt, set_memory m e)
    | inl x => (inl x, e)
    end.
Proof. unfold apply_cheat. run_method. by destruct (Memory.write32 _ _ _). Qed.

(** A cheat inside RAM is the write, readable at once. *)
Lemma apply_cheat_inside e a v :
  0 <= a < len (Memory.ram (memory e)) -> 0 <= v < 2 ^ 32 ->
  ∃ m', apply_cheat a v e = (inr tt, set_memory m' e)
        ∧ Memory.read32 m' a = inr v ∧ Memory.rom m' = Memory.rom (memory e).
Proof.
  intros Ha Hv. destruct (write32_then_read32 (memory e) a v Ha Hv) as (m' & Hw & Hr & Hrom).
  exists m'. by rewrite apply_cheat_run, Hw.
Qed.

(** A cheat at or beyond the end of RAM returns normally and does
    nothing. *)
Lemma apply_cheat_outside e a v :
  len (Memory.ram (memory e)) <= a -> apply_cheat a v e = (inr tt, e).
Proof.
  intros Ha. rewrite apply_cheat_run, write32_ignored by done.
  by rewrite set_memory_same.
Qed.

Lemma reset_run e :
  reset e
  = (inr tt,
     mk (memory e) (VR4300CPU.reset (cpu e)) (RSP.reset (rsp e)) (RDP.reset (rdp e))
        (AudioSystem.reset (audio e)) (input e) (running e) (paused e)).
Proof. reflexivity. Qed.

(** RAM that holds only zero bytes reads as zero. *)
Lemma read32_zero_ram (m : Memory.t) a :
  Forall (λ b, b = x00) (Memory.ram m) -> a < len (Memory.ram m) ->
  Memory.read32 m a = inr 0.
Proof.
  intros Hz Ha. rewrite read32_ram by done. f_equal.
  apply from_bytes_big_zeros. unfold slice. by apply Forall_take, Forall_drop.
Qed.

(** Restoring what was just captured changes nothing. *)
Lemma load_state_save_state e (pickles : gmap string dict) slot_name :
  load_state (save_state slot_name e pickles) slot_name e = (inr tt, e).
Proof.
  unfold load_state, save_state. rewrite lookup_insert_eq.
  destruct e as [m [rg p c0] [rr] [fb] [ab] i rn ps].
  unfold VR4300CPU.set_state, RSP.set_state. run_method. simpl.
  rewrite !slice_all, slice_assign_all. destruct m as [ram rom]. simpl.
  unfold RDP.set_state. simpl. destruct fb as [|b fb]; [done|].
  by rewrite slice_assign_all.
Qed.

Lemma load_state_no_file e (pickles : gmap string dict) slot_name :
  pickles !! state_path slot_name = None ->
  load_state pickles slot_name e = (inl (FileNotFoundError (state_path slot_name)), e).
Proof. intros H. unfold load_state. by rewrite H. Qed.

Lemma load_state_no_cpu e (pickles : gmap string dict) slot_name st :
  pickles !! state_path slot_name = Some st -> k_cpu st = None ->
  load_state pickles slot_name e = (inl (KeyError "cpu"), e).
Proof. intros H Hc. unfold load_state. rewrite H. run_method. simpl. by rewrite Hc. Qed.

(** A file with a whole processor section and no [rsp] section: the
    processor has been replaced when the lookup of ["rsp"] raises. *)
Lemma load_state_no_rsp e (pickles : gmap string dict) slot_name st c r p :
  pickles !! state_path slot_name = Some st ->
  k_cpu st = Some c -> VR4300CPU.k_regs c = Some r -> VR4300CPU.k_pc c = Some p ->
  k_rsp st = None ->
  load_state pickles slot_name e
  = (inl (KeyError "rsp"),
     set_cpu {| VR4300CPU.regs := r; VR4300CPU.pc := p;
                VR4300CPU.cp0 := default ∅ (VR4300CPU.k_cp0 c) |} e).
Proof.
  intros H Hc Hr Hp Hrsp. unfold load_state. rewrite H.
  unfold VR4300CPU.set_state. run_method. simpl.
  rewrite Hc; run_method; simpl. rewrite Hr; run_method; simpl.
  rewrite Hp; run_method; simpl. rewrite Hrsp; run_method; simpl.
  by rewrite slice_all.
Qed.

(** A non-zero word planted by a cheat is still in RAM after [reset]. *)
Lemma reset_after_cheat e a v :
  0 <= a < len (Memory.ram (memory e)) -> 0 < v < 2 ^ 32 ->
  (reset (apply_cheat a v e).2).1 = inr tt ∧
  Memory.read32 (memory (reset (apply_cheat a v e).2).2) a = inr v ∧
  ¬ Forall (λ b, b = x00) (Memory.ram (memory (reset (apply_cheat a v e).2).2)).
Proof.
  intros Ha Hv.
  destruct (write32_then_read32 (memory e) a v Ha ltac:(lia)) as (m' & Hw & Hr & _).
  pose proof (write32_ram_len _ _ _ _ Ha Hw) as Hlen.
  rewrite apply_cheat_run, Hw, reset_run. simpl.
  split; [done|]. split; [done|]. intros Hz.
  rewrite (read32_zero_ram m' a Hz) in Hr by lia. injection Hr. lia.
Qed.

End EmulatorFacts.

(** C6, as stated, fails. On the emulator as built, address 0x20000000 is
    outside the 8 MB of RAM, and [apply_cheat] there returns normally: no
    exception is raised and the address is accepted without a word. *)
Lemma cheat_outside_ram_accepted :
  len (Memory.ram (N64Emulator.memory N64Emulator.init)) <= 0x20000000 ∧
  N64Emulator.apply_cheat 0x20000000 0xdeadbeef N64Emulator.init
  = (inr tt, N64Emulator.init) ∧
  ¬ raised (N64Emulator.apply_cheat 0x20000000 0xdeadbeef N64Emulator.init).1.
Proof.
  assert (H : len (Memory.ram (N64Emulator.memory N64Emulator.init)) <= 0x20000000)
    by (rewrite init_ram_len; lia).
  pose proof (apply_cheat_outside N64Emulator.init 0x20000000 0xdeadbeef H) as E.
  split; [exact H|]. split; [exact E|].
  intros [x Hx]. rewrite E in Hx. discriminate Hx.
Qed.

(** C6, amended. [apply_cheat(address, value)] with the address inside RAM
    and a 32-bit value makes the next [read32(address)] return the value;
    with the address at or beyond the end of RAM it returns normally, raises
    nothing, and leaves the whole emulator, RAM included, as it was. *)
Theorem apply_cheat_writes_or_ignores (e : N64Emulator.t) (address value : Z) :
  (0 <= address < len (Memory.ram (N64Emulator.memory e)) -> 0 <= value < 2 ^ 32 ->
   ∃ e', N64Emulator.apply_cheat address value e = (inr tt, e') ∧
         Memory.read32 (N64Emulator.memory e') address = inr value) ∧
  (len (Memory.ram (N64Emulator.memory e)) <= address ->
   N64Emulator.apply_cheat address value e = (inr tt, e)).
Proof.
  split.
  - intros Ha Hv. destruct (apply_cheat_inside e address value Ha Hv) as (m' & Hc & Hr & _).
    by exists (N64Emulator.set_memory m' e).
  - apply apply_cheat_outside.
Qed.

Lemma apply_cheat_writes_or_ignores_witness :
  (∃ e', N64Emulator.apply_cheat 0x100 0xdeadbeef N64Emulator.init = (inr tt, e') ∧
         Memory.read32 (N64Emulator.memory e') 0x100 = inr 0xdeadbeef) ∧
  N64Emulator.apply_cheat 0x20000000 0xdeadbeef N64Emulator.init
  = (inr tt, N64Emulator.init).
Proof.
  split.
  - apply (apply_cheat_writes_or_ignores N64Emulator.init 0x100 0xdeadbeef);
      [rewrite init_ram_len|]; lia.
  - apply (apply_cheat_writes_or_ignores N64Emulator.init 0x20000000 0xdeadbeef).
    rewrite init_ram_len. lia.
Defined.

(** C7, as stated, fails. After [apply_cheat(0x100, 0xdeadbeef)] on the
    emulator as built, [reset] returns with the word still at 0x100: RAM is
    not entirely zero. *)
Lemma reset_keeps_ram :
  (N64Emulator.reset
     (N64Emulator.apply_cheat 0x100 0xdeadbeef N64Emulator.init).2).1 = inr tt ∧
  Memory.read32
    (N64Emulator.memory
       (N64Emulator.reset
          (N64Emulator.apply_cheat 0x100 0xdeadbeef N64Emulator.init).2).2) 0x100
  = inr 0xdeadbeef ∧
  ¬ Forall (λ b, b = x00)
      (Memory.ram
         (N64Emulator.memory
            (N64Emulator.reset
               (N64Emulator.apply_cheat 0x100 0xdeadbeef N64Emulator.init).2).2)).
Proof.
  apply (reset_after_cheat N64Emulator.init 0x100 0xdeadbeef);
    [rewrite init_ram_len|]; lia.
Qed.

(** C7, amended. After [reset()], from every state: the program counter
    is the entry vector 0xA4000040, the 32 general registers are zero, and
    the memory is untouched, so that RAM keeps its contents and the ROM is
    the one of the last cartridge load. *)
Theorem reset_state (e : N64Emulator.t) :
  ∃ e', N64Emulator.reset e = (inr tt, e') ∧
        VR4300CPU.pc (N64Emulator.cpu e') = 0xA4000040 ∧
        VR4300CPU.regs (N64Emulator.cpu e') = replicate 32 0 ∧
        Memory.ram (N64Emulator.memory e') = Memory.ram (N64Emulator.memory e) ∧
        Memory.rom (N64Emulator.memory e') = Memory.rom (N64Emulator.memory e).
Proof. eexists. rewrite reset_run. by repeat split. Qed.

(** C3, as stated, fails. The file of slot ["slot1"] has a processor
    section and no other; loading it on the emulator as built raises
    [KeyError] at the lookup of ["rsp"], and by then the processor carries
    the registers and the counter of the file. *)
Lemma failed_load_replaces_cpu :
  (N64Emulator.load_state Scenario.torn_pickles "slot1" N64Emulator.init).1
  = inl (KeyError "rsp") ∧
  N64Emulator.cpu (N64Emulator.load_state Scenario.torn_pickles "slot1" N64Emulator.init).2
  = {| VR4300CPU.regs := replicate 32 7; VR4300CPU.pc := 0x1234; VR4300CPU.cp0 := ∅ |} ∧
  N64Emulator.cpu (N64Emulator.load_state Scenario.torn_pickles "slot1" N64Emulator.init).2
  ≠ N64Emulator.cpu N64Emulator.init.
Proof.
  assert (Hfile : Scenario.torn_pickles !! N64Emulator.state_path "slot1"
                  = Some Scenario.torn) by apply lookup_insert_eq.
  pose proof (load_state_no_rsp N64Emulator.init Scenario.torn_pickles "slot1"
                Scenario.torn _ (replicate 32 7) 0x1234 Hfile eq_refl eq_refl eq_refl eq_refl)
    as E.
  rewrite E. split; [reflexivity|]. split; [reflexivity|].
  intros H. apply (f_equal VR4300CPU.pc) in H. discriminate H.
Qed.

(** C3, amended. [load_state] does not validate the file before applying
    it. On a file that holds a dictionary whose sections, where present, are
    of the shape [save_state] writes, it restores the sections one at a time
    in the order cpu, rsp, rdp, audio, memory, and the first missing section
    stops it with a [KeyError] for that section: what was restored before
    stays restored, what comes after is unmodified. So with no file for the
    slot ([FileNotFoundError]) or no cpu section the machine is unmodified;
    with no rsp section the processor has been replaced; with no rdp section
    the processor and the RSP; with no audio section these and the frame
    buffer; with no memory section these and the audio buffer, RAM being
    unmodified; with no controllers section RAM has been replaced as well. *)
Theorem load_state_failures (pickles : gmap string N64Emulator.dict)
    (slot_name : string) (e : N64Emulator.t) :
  (pickles !! N64Emulator.state_path slot_name = None ->
   N64Emulator.load_state pickles slot_name e
   = (inl (FileNotFoundError (N64Emulator.state_path slot_name)), e)) ∧
  (∀ st, pickles !! N64Emulator.state_path slot_name = Some st ->
         N64Emulator.k_cpu st = None ->
         N64Emulator.load_state pickles slot_name e = (inl (KeyError "cpu"), e)) ∧
  (∀ st c r p,
     pickles !! N64Emulator.state_path slot_name = Some st ->
     N64Emulator.k_cpu st = Some c ->
     VR4300CPU.k_regs c = Some r -> VR4300CPU.k_pc c = Some p ->
     let e1 :=
       N64Emulator.set_cpu
         {| VR4300CPU.regs := r; VR4300CPU.pc := p;
            VR4300CPU.cp0 := default ∅ (VR4300CPU.k_cp0 c) |} e in
     (N64Emulator.k_rsp st = None ->
      N64Emulator.load_state pickles slot_name e = (inl (KeyError "rsp"), e1)) ∧
     (∀ s rr,
        N64Emulator.k_rsp st = Some s -> RSP.k_regs s = Some rr ->
        let e2 := N64Emulator.set_rsp {| RSP.regs := rr |} e1 in
        (N64Emulator.k_rdp st = None ->
         N64Emulator.load_state pickles slot_name e = (inl (KeyError "rdp"), e2)) ∧
        (∀ d,
           N64Emulator.k_rdp st = Some d ->
           let e3 := N64Emulator.set_rdp (RDP.set_state d (N64Emulator.rdp e)) e2 in
           (N64Emulator.k_audio st = None ->
            N64Emulator.load_state pickles slot_name e = (inl (KeyError "audio"), e3)) ∧
           (∀ a,
              N64Emulator.k_audio st = Some a ->
              let e4 :=
                N64Emulator.set_audio
                  (AudioSystem.set_state a (N64Emulator.audio e)) e3 in
              (N64Emulator.k_memory st = None ->
               N64Emulator.load_state pickles slot_name e
               = (inl (KeyError "memory"), e4)) ∧
              (∀ m,
                 N64Emulator.k_memory st = Some m ->
                 N64Emulator.k_controllers st = None ->
                 N64Emulator.load_state pickles slot_name e
                 = (inl (KeyError "controllers"),
                    N64Emulator.set_memory
                      {| Memory.ram := m;
                         Memory.rom := Memory.rom (N64Emulator.memory e) |} e4)))))).
Proof.
  split; [apply load_state_no_file|].
  split; [intros st; apply load_state_no_cpu|].
  intros st c r p Hfile Hc Hr Hp e1.
  split; [by apply (load_state_no_rsp e pickles slot_name st c r p)|].
  unfold e1. clear e1.
  unfold N64Emulator.load_state, VR4300CPU.set_state, RSP.set_state.
  rewrite Hfile. destruct st as [oc orsp ordp oa om ol]. simpl in Hc. subst oc.
  destruct c as [orr op oc0]. simpl in Hr, Hp. subst orr op.
  destruct e as [mem0 cpu0 rsp0 rdp0 au0 in0 rn ps]. run_method. simpl.
  rewrite slice_all.
  intros s rr -> Hrr. destruct s as [orr2]. simpl in Hrr. subst orr2.
  simpl. rewrite slice_all.
  split; [by intros ->|].
  intros d ->. simpl.
  split; [by intros ->|].
  intros a ->. simpl.
  split; [by intros ->|].
  intros m -> ->. simpl. by rewrite slice_assign_all.
Qed.

Lemma load_state_failures_witness :
  N64Emulator.load_state {[ N64Emulator.state_path "s" := Small.no_audio ]} "s" Small.emu
  = (inl (KeyError "audio"),
     N64Emulator.set_rdp
       (RDP.set_state (RDP.Dict (Some [x01; x02])) (N64Emulator.rdp Small.emu))
       (N64Emulator.set_rsp {| RSP.regs := replicate 32 1 |}
          (N64Emulator.set_cpu
             {| VR4300CPU.regs := replicate 32 7; VR4300CPU.pc := 0x1234;
                VR4300CPU.cp0 := default ∅ None |} Small.emu))).
Proof.
  assert (Hfile : ({[ N64Emulator.state_path "s" := Small.no_audio ]}
                     : gmap string N64Emulator.dict) !! N64Emulator.state_path "s"
                  = Some Small.no_audio) by apply lookup_singleton_eq.
  destruct (load_state_failures {[ N64Emulator.state_path "s" := Small.no_audio ]}
              "s" Small.emu) as (_ & _ & H).
  destruct (H Small.no_audio _ (replicate 32 7) 0x1234 Hfile eq_refl eq_refl eq_refl)
    as [_ H2].
  destruct (H2 _ (replicate 32 1) eq_refl eq_refl) as [_ H3].
  destruct (H3 (RDP.Dict (Some [x01; x02])) eq_refl) as [H4 _].
  exact (H4 eq_refl).
Defined.

(** C4. From every machine state and for every [n], [save_state] followed
    at once by [load_state] of the same slot succeeds, and the next [n]
    passes of the loop give the trace they would have given without the two
    calls. *)
Theorem save_load_same_trace (e : N64Emulator.t)
    (pickles : gmap string N64Emulator.dict) (slot_name : string) (n : nat) :
  ∃ e', N64Emulator.load_state (N64Emulator.save_state slot_name e pickles) slot_name e
        = (inr tt, e') ∧
        N64Emulator.trace n e' = N64Emulator.trace n e.
Proof. exists e. split; [apply load_state_save_state | reflexivity]. Qed.

(** ** Further properties of the memory *)

Section MemoryBounds.
Implicit Types (m : Memory.t) (a v : Z) (bs : list byte).

Lemma from_bytes_big_bound bs : 0 <= from_bytes_big bs < 256 ^ len bs.
Proof.
  unfold from_bytes_big.
  assert (G : ∀ acc, 0 <= acc ->
            0 <= fold_left (λ acc b, acc * 256 + byte_val b) bs acc
            < (acc + 1) * 256 ^ len bs).
  { induction bs as [|b bs IH]; intros acc Hacc.
    - simpl. change (len (@nil byte)) with 0. lia.
    - simpl fold_left. pose proof (byte_val_range b) as Hb.
      pose proof (len_nonneg bs) as Hl.
      specialize (IH (acc * 256 + byte_val b) ltac:(lia)).
      replace (len (b :: bs)) with (len bs + 1) by (unfold len; simpl length; lia).
      rewrite Z.pow_add_r by lia. change (256 ^ 1) with 256.
      assert (0 < 256 ^ len bs) by (apply Z.pow_pos_nonneg; lia). nia. }
  specialize (G 0 ltac:(lia)). lia.
Qed.

(** A slice of width four never has more than four elements, wherever its
    bounds fall. *)
Lemma len_slice_4 {A} (l : list A) a : len (slice l a (a + 4)) <= 4.
Proof.
  unfold slice, len. rewrite length_take.
  assert (clamp (len l) (a + 4) - clamp (len l) a <= 4).
  { pose proof (len_nonneg l). unfold clamp.
    destruct (Z.ltb_spec (a + 4) 0), (Z.ltb_spec a 0); lia. }
  unfold len in *. lia.
Qed.

Lemma slice_to_end {A} (l : list A) a b :
  0 <= a <= len l -> len l <= b -> slice l a b = drop (Z.to_nat a) l.
Proof.
  intros Ha Hb. unfold slice.
  rewrite (clamp_inside _ a), (clamp_beyond _ b) by lia.
  apply take_ge. rewrite length_drop. unfold len in *. lia.
Qed.

Lemma slice_assign_inside {A} (l v : list A) a :
  0 <= a -> a + len v <= len l ->
  slice_assign l a (a + len v) v
  = take (Z.to_nat a) l ++ v ++ drop (Z.to_nat (a + len v)) l.
Proof.
  intros Ha Hl. pose proof (len_nonneg v). unfold slice_assign.
  rewrite (clamp_inside _ a), (clamp_inside _ (a + len v)) by lia.
  by rewrite Z.max_r by lia.
Qed.

(** An in-place assignment of as many elements as the range holds: the
    length stays, and so does every element outside the range. *)
Lemma slice_assign_inside_frame {A} (l v : list A) a :
  0 <= a -> a + len v <= len l ->
  len (slice_assign l a (a + len v) v) = len l ∧
  ∀ i : nat, Z.of_nat i < a ∨ a + len v <= Z.of_nat i ->
             slice_assign l a (a + len v) v !! i = l !! i.
Proof.
  intros Ha Hl. pose proof (len_nonneg v) as Hv.
  rewrite slice_assign_inside by done.
  assert (Htk : length (take (Z.to_nat a) l) = Z.to_nat a).
  { rewrite length_take. unfold len in *. lia. }
  split.
  - rewrite !len_app. unfold len in *. rewrite Htk, length_drop. lia.
  - intros i [Hi|Hi].
    + rewrite lookup_app_l by lia. apply lookup_take_lt. lia.
    + rewrite lookup_app_r by lia. rewrite lookup_app_r by (unfold len in *; lia).
      rewrite lookup_drop. f_equal. unfold len in *. lia.
Qed.

(** Assigning twice to the same range, each time as many elements as it
    holds, is assigning the second time only. *)
Lemma slice_assign_twice {A} (l v w : list A) a n :
  0 <= a -> len v = n -> len w = n -> a + n <= len l ->
  slice_assign (slice_assign l a (a + n) v) a (a + n) w = slice_assign l a (a + n) w.
Proof.
  intros Ha Hv Hw Hl. pose proof (len_nonneg v) as Hn.
  assert (E : ∀ l0 u : list A, len u = n -> a + n <= len l0 ->
            slice_assign l0 a (a + n) u
            = take (Z.to_nat a) l0 ++ u ++ drop (Z.to_nat (a + n)) l0).
  { intros l0 u Hu Hl0. rewrite <- Hu in *. by apply slice_assign_inside. }
  assert (Htk : length (take (Z.to_nat a) l) = Z.to_nat a).
  { rewrite length_take. unfold len in *. lia. }
  rewrite (E l v Hv Hl), (E l w Hw Hl). rewrite E; [|done|].
  - f_equal; [by rewrite take_app_length'|]. f_equal.
    rewrite drop_app_ge by lia. rewrite drop_app_ge by (unfold len in *; lia).
    rewrite drop_drop. f_equal. unfold len in *. lia.
  - rewrite !len_app. unfold len in *. rewrite Htk, length_drop. lia.
Qed.

End MemoryBounds.

(** X1. Whatever the memory and the address, a [read32] that returns gives
    a value in the range of a 32-bit word. *)
Theorem read32_word_range (m : Memory.t) (a w : Z) :
  Memory.read32 m a = inr w -> 0 <= w < 2 ^ 32.
Proof.
  assert (G : ∀ (l : list byte) b, 0 <= from_bytes_big (slice l b (b + 4)) < 2 ^ 32).
  { intros l b. pose proof (from_bytes_big_bound (slice l b (b + 4))) as Hb.
    pose proof (len_slice_4 l b) as H4.
    assert (256 ^ len (slice l b (b + 4)) <= 256 ^ 4)
      by (apply Z.pow_le_mono_r; lia).
    change (256 ^ 4) with (2 ^ 32) in *. lia. }
  unfold Memory.read32. destruct (a <? len (Memory.ram m)).
  - intros [= <-]. apply G.
  - destruct (Memory.rom m) as [r|]; [|done]. intros [= <-]. apply G.
Qed.

Lemma read32_word_range_witness : 0 <= 0x0708 < 2 ^ 32.
Proof.
  apply (read32_word_range
           (Memory.load_cartridge (Memory.init 8) [x01; x02; x03; x04; x05; x06; x07; x08])
           0x10000006 0x0708).
  reflexivity.
Defined.

(** X2. A [read32] at one of the last three addresses of RAM does not
    fail and is not padded: it returns the big-endian value of the bytes
    that remain from that address to the end of RAM, a value below 2^24. *)
Theorem read32_ram_tail (m : Memory.t) (a : Z) :
  0 <= a -> len (Memory.ram m) - 4 < a < len (Memory.ram m) ->
  Memory.read32 m a = inr (from_bytes_big (drop (Z.to_nat a) (Memory.ram m))) ∧
  0 <= from_bytes_big (drop (Z.to_nat a) (Memory.ram m)) < 2 ^ 24.
Proof.
  intros Ha Hr. split.
  - rewrite read32_ram by lia. by rewrite slice_to_end by lia.
  - pose proof (from_bytes_big_bound (drop (Z.to_nat a) (Memory.ram m))) as Hb.
    assert (Hl : 0 <= len (drop (Z.to_nat a) (Memory.ram m)) <= 3).
    { unfold len in *. rewrite length_drop. lia. }
    assert (256 ^ len (drop (Z.to_nat a) (Memory.ram m)) <= 256 ^ 3)
      by (apply Z.pow_le_mono_r; lia).
    change (256 ^ 3) with (2 ^ 24) in *. lia.
Qed.

Lemma read32_ram_tail_witness :
  Memory.read32 {| Memory.ram := [x01; x02; x03; x04; x05; x06]; Memory.rom := None |} 4
  = inr (from_bytes_big [x05; x06]) ∧
  0 <= from_bytes_big [x05; x06] < 2 ^ 24.
Proof.
  apply (read32_ram_tail
           {| Memory.ram := [x01; x02; x03; x04; x05; x06]; Memory.rom := None |} 4);
    [lia | vm_compute; split; reflexivity].
Defined.

(** X3. A [write32] of a word at an address whose four bytes lie inside
    RAM is in place: RAM keeps its length, the ROM stays, every byte outside
    the four written ones stays, and so does the value of [read32] at every
    address whose four bytes lie inside RAM and do not overlap them. *)
Theorem write32_frame (m : Memory.t) (a v : Z) :
  0 <= a -> a + 4 <= len (Memory.ram m) -> 0 <= v < 2 ^ 32 ->
  ∃ m', Memory.write32 m a v = inr m' ∧
        len (Memory.ram m') = len (Memory.ram m) ∧
        Memory.rom m' = Memory.rom m ∧
        (∀ i : nat, Z.of_nat i < a ∨ a + 4 <= Z.of_nat i ->
                    Memory.ram m' !! i = Memory.ram m !! i) ∧
        (∀ b, 0 <= b -> b + 4 <= len (Memory.ram m) -> b + 4 <= a ∨ a + 4 <= b ->
              Memory.read32 m' b = Memory.read32 m b).
Proof.
  intros Ha Hl Hv. destruct (to_bytes4_big_inv v Hv) as (bs & Hbs & Hlen & _).
  eexists. split; [apply write32_ram; [lia | exact Hbs]|]. simpl.
  destruct (slice_assign_inside_frame (Memory.ram m) bs a Ha ltac:(lia)) as [Hsame Hout].
  rewrite Hlen in Hsame, Hout.
  split; [done|]. split; [done|]. split; [done|].
  intros b Hb Hbl Hdis. rewrite !read32_ram by (simpl; lia). simpl. do 2 f_equal.
  rewrite !slice_inside by lia. apply list_eq. intros i.
  destruct (decide (i < 4)%nat) as [Hi|Hi].
  - rewrite !lookup_take_lt, !lookup_drop by (change (Z.to_nat 4) with 4%nat; lia).
    apply Hout. lia.
  - rewrite !lookup_take_ge by (change (Z.to_nat 4) with 4%nat; lia). done.
Qed.

Lemma write32_frame_witness :
  ∃ m', Memory.write32 (Memory.init 16) 4 0xdeadbeef = inr m' ∧
        len (Memory.ram m') = len (Memory.ram (Memory.init 16)) ∧
        Memory.rom m' = Memory.rom (Memory.init 16) ∧
        (∀ i : nat, Z.of_nat i < 4 ∨ 4 + 4 <= Z.of_nat i ->
                    Memory.ram m' !! i = Memory.ram (Memory.init 16) !! i) ∧
        (∀ b, 0 <= b -> b + 4 <= len (Memory.ram (Memory.init 16)) ->
              b + 4 <= 4 ∨ 4 + 4 <= b ->
              Memory.read32 m' b = Memory.read32 (Memory.init 16) b).
Proof.
  apply (write32_frame (Memory.init 16) 4 0xdeadbeef);
    [lia | vm_compute; congruence | lia].
Defined.

(** X4. [apply_cheat] (and the [write32] it calls) with an address below
    the end of RAM and a value that is negative or does not fit in 32 bits
    raises [OverflowError] and leaves the emulator as it was. *)
Theorem apply_cheat_overflow (e : N64Emulator.t) (address value : Z) :
  address < len (Memory.ram (N64Emulator.memory e)) -> ¬ (0 <= value < 2 ^ 32) ->
  Memory.write32 (N64Emulator.memory e) address value = inl OverflowError ∧
  N64Emulator.apply_cheat address value e = (inl OverflowError, e).
Proof.
  intros Ha Hv.
  assert (Hw : Memory.write32 (N64Emulator.memory e) address value = inl OverflowError).
  { unfold Memory.write32.
    destruct (Z.ltb_spec address (len (Memory.ram (N64Emulator.memory e)))); [|lia].
    by rewrite to_bytes4_big_overflow. }
  split; [done|]. by rewrite apply_cheat_run, Hw.
Qed.

Lemma apply_cheat_overflow_witness :
  Memory.write32 (N64Emulator.memory Small.emu) 4 (2 ^ 32) = inl OverflowError ∧
  N64Emulator.apply_cheat 4 (2 ^ 32) Small.emu = (inl OverflowError, Small.emu).
Proof.
  apply (apply_cheat_overflow Small.emu 4 (2 ^ 32)); [vm_compute; reflexivity | lia].
Defined.

(** X5. Two [write32] of words at the same address, its four bytes inside
    RAM, leave the memory that the second alone would leave. *)
Theorem write32_write32 (m : Memory.t) (a v w : Z) :
  0 <= a -> a + 4 <= len (Memory.ram m) -> 0 <= v < 2 ^ 32 -> 0 <= w < 2 ^ 32 ->
  (m1 ← Memory.write32 m a v; Memory.write32 m1 a w) = Memory.write32 m a w.
Proof.
  intros Ha Hl Hv Hw.
  destruct (to_bytes4_big_inv v Hv) as (bv & Hbv & Hlv & _).
  destruct (to_bytes4_big_inv w Hw) as (bw & Hbw & Hlw & _).
  rewrite (write32_ram m a v bv) by (done || lia).
  rewrite (write32_ram m a w bw) by (done || lia).
  unfold mbind, result_bind.
  destruct (slice_assign_inside_frame (Memory.ram m) bv a Ha ltac:(lia)) as [Hsame _].
  rewrite Hlv in Hsame.
  rewrite (write32_ram _ a w bw) by (simpl; done || lia). simpl. do 2 f_equal.
  by apply slice_assign_twice.
Qed.

Lemma write32_write32_witness :
  (m1 ← Memory.write32 (Memory.init 16) 4 0xdeadbeef; Memory.write32 m1 4 0x01020304)
  = Memory.write32 (Memory.init 16) 4 0x01020304.
Proof.
  apply (write32_write32 (Memory.init 16) 4 0xdeadbeef 0x01020304);
    [lia | vm_compute; congruence | lia | lia].
Defined.

(** X6. [Memory.reset] keeps the length of RAM and the ROM, and after it
    every [read32] of an address below the end of RAM returns 0. *)
Theorem memory_reset_reads_zero (m : Memory.t) (a : Z) :
  a < len (Memory.ram m) ->
  len (Memory.ram (Memory.reset m)) = len (Memory.ram m) ∧
  Memory.rom (Memory.reset m) = Memory.rom m ∧
  Memory.read32 (Memory.reset m) a = inr 0.
Proof.
  intros Ha. destruct (memory_reset_zero m) as [Hram Hrom].
  assert (Hl : len (Memory.ram (Memory.reset m)) = len (Memory.ram m)).
  { rewrite Hram. unfold len. by rewrite length_replicate. }
  split; [done|]. split; [done|].
  apply read32_zero_ram; [|lia]. rewrite Hram. by apply Forall_replicate.
Qed.

Lemma memory_reset_reads_zero_witness :
  len (Memory.ram (Memory.reset {| Memory.ram := [x01; x02; x03; x04]; Memory.rom := None |}))
  = len [x01; x02; x03; x04] ∧
  Memory.rom (Memory.reset {| Memory.ram := [x01; x02; x03; x04]; Memory.rom := None |}) = None ∧
  Memory.read32 (Memory.reset {| Memory.ram := [x01; x02; x03; x04]; Memory.rom := None |}) 0
  = inr 0.
Proof.
  apply (memory_reset_reads_zero {| Memory.ram := [x01; x02; x03; x04]; Memory.rom := None |} 0).
  reflexivity.
Defined.

(** ** Further properties of the processor *)

Section CPUSteps.
Import VR4300CPU.

Lemma _execute_keeps_registers (instr : Z) (c : VR4300CPU.t) :
  regs (_execute instr c) = regs c ∧ cp0 (_execute instr c) = cp0 c.
Proof.
  unfold _execute. destruct (_ =? 0); [done|]. by destruct (_ || _).
Qed.

Lemma _execute_other (instr : Z) (c : VR4300CPU.t) :
  Z.land (Z.shiftr instr 26) 0x3F ≠ 2 -> Z.land (Z.shiftr instr 26) 0x3F ≠ 3 ->
  _execute instr c = c.
Proof.
  intros H2 H3. unfold _execute. destruct (_ =? 0); [done|].
  destruct (Z.eqb_spec (Z.land (Z.shiftr instr 26) 63) 2); [done|].
  by destruct (Z.eqb_spec (Z.land (Z.shiftr instr 26) 63) 3).
Qed.

(** The value a jump stores in the counter fits in 32 bits and is a
    multiple of 4. *)
Lemma jump_target_range (p instr : Z) :
  let p' := Z.lor (Z.land p 0xF0000000) (Z.shiftl (Z.land instr 0x03FFFFFF) 2) in
  0 <= p' < 2 ^ 32 ∧ p' mod 4 = 0.
Proof.
  intros p'.
  assert (Hform : p' = Z.lor (Z.land p 0xF0000000) (Z.land (Z.shiftl instr 2) 0x0FFFFFFC)).
  { unfold p'. by rewrite Z.shiftl_land. }
  assert (H32 : Z.land p' (Z.ones 32) = p').
  { rewrite Hform, Z.land_lor_distr_l, <- !Z.land_assoc. reflexivity. }
  assert (H2 : Z.land p' (Z.ones 2) = 0).
  { rewrite Hform, Z.land_lor_distr_l, <- !Z.land_assoc.
    change (Z.land 0xF0000000 (Z.ones 2)) with 0.
    change (Z.land 0x0FFFFFFC (Z.ones 2)) with 0.
    by rewrite !Z.land_0_r. }
  rewrite Z.land_ones in H32, H2 by lia.
  split; [|exact H2]. rewrite <- H32. apply Z.mod_pos_bound. lia.
Qed.

(** A step leaves a processor that differs from the one before at most
    in the counter. *)
Lemma step_regs_only (mem : Memory.t) (c : VR4300CPU.t) :
  ∃ p, (execute_next_instruction mem c).2 = set_pc p c.
Proof.
  destruct (Memory.read32 mem (pc c)) as [x|instr] eqn:Hf.
  - rewrite (execute_next_instruction_fault mem c x Hf). exists (pc c). by destruct c.
  - rewrite (execute_next_instruction_fetch mem c instr Hf).
    unfold _execute. destruct (_ =? 0); [by eexists|].
    destruct (_ || _); by eexists.
Qed.

End CPUSteps.

(** X7. One instruction step never changes a general register or a
    coprocessor-0 register; a step whose fetch raises leaves the processor
    as it was; and a step that fetches a word whose opcode is neither 2 nor
    3 only adds 4 to the counter, without wrapping. *)
Theorem step_keeps_registers (mem : Memory.t) (c : VR4300CPU.t) :
  VR4300CPU.regs (VR4300CPU.execute_next_instruction mem c).2 = VR4300CPU.regs c ∧
  VR4300CPU.cp0 (VR4300CPU.execute_next_instruction mem c).2 = VR4300CPU.cp0 c ∧
  (∀ x, (VR4300CPU.execute_next_instruction mem c).1 = inl x ->
        (VR4300CPU.execute_next_instruction mem c).2 = c) ∧
  (∀ instr, Memory.read32 mem (VR4300CPU.pc c) = inr instr ->
            Z.land (Z.shiftr instr 26) 0x3F ≠ 2 -> Z.land (Z.shiftr instr 26) 0x3F ≠ 3 ->
            VR4300CPU.execute_next_instruction mem c
            = (inr tt, VR4300CPU.set_pc (VR4300CPU.pc c + 4) c)).
Proof.
  destruct (Memory.read32 mem (VR4300CPU.pc c)) as [x|instr] eqn:Hf.
  - rewrite (execute_next_instruction_fault mem c x Hf). by repeat split.
  - rewrite (execute_next_instruction_fetch mem c instr Hf).
    destruct (_execute_keeps_registers instr (VR4300CPU.set_pc (VR4300CPU.pc c + 4) c))
      as [Hr Hc].
    split; [exact Hr|]. split; [exact Hc|]. split; [done|].
    intros i [= <-] H2 H3. by rewrite _execute_other.
Qed.

Lemma step_keeps_registers_witness :
  VR4300CPU.execute_next_instruction (Memory.init 16) VR4300CPU.init
  = (inr tt, VR4300CPU.set_pc (0 + 4) VR4300CPU.init).
Proof.
  apply (step_keeps_registers (Memory.init 16) VR4300CPU.init) with (instr := 0); done.
Defined.

(** X8. After a step that executes an absolute jump (opcode 2 or 3), the
    counter is a multiple of 4 in the range of a 32-bit word, whatever it
    was before. *)
Theorem jump_lands_on_word (mem : Memory.t) (c : VR4300CPU.t) (instr : Z) :
  Memory.read32 mem (VR4300CPU.pc c) = inr instr ->
  Z.land (Z.shiftr instr 26) 0x3F = 2 ∨ Z.land (Z.shiftr instr 26) 0x3F = 3 ->
  0 <= VR4300CPU.pc (VR4300CPU.execute_next_instruction mem c).2 < 2 ^ 32 ∧
  VR4300CPU.pc (VR4300CPU.execute_next_instruction mem c).2 mod 4 = 0.
Proof.
  intros Hf Hop. rewrite (execute_next_instruction_fetch mem c instr Hf).
  rewrite _execute_jump by done. apply jump_target_range.
Qed.

Lemma jump_lands_on_word_witness :
  0 <= VR4300CPU.pc
         (VR4300CPU.execute_next_instruction
            (Memory.load_cartridge (Memory.init 8) [x0c; x00; x00; x10])
            (VR4300CPU.set_pc 0x10000000 VR4300CPU.init)).2 < 2 ^ 32 ∧
  VR4300CPU.pc
    (VR4300CPU.execute_next_instruction
       (Memory.load_cartridge (Memory.init 8) [x0c; x00; x00; x10])
       (VR4300CPU.set_pc 0x10000000 VR4300CPU.init)).2 mod 4 = 0.
Proof.
  apply (jump_lands_on_word (Memory.load_cartridge (Memory.init 8) [x0c; x00; x00; x10])
           (VR4300CPU.set_pc 0x10000000 VR4300CPU.init) 0x0c000010);
    [reflexivity | right; reflexivity].
Defined.

(** ** Further properties of the emulation loop *)

Section LoopFacts.
Import N64Emulator.
Implicit Types (e : N64Emulator.t) (n : nat).

(** One pass of the loop: nothing when paused, otherwise the instruction
    step, the only part of the pass that does anything. *)
Lemma loop_body_run e :
  loop_body e
  = if paused e then (inr tt, e)
    else let r := VR4300CPU.execute_next_instruction (memory e) (cpu e) in
         (r.1, set_cpu r.2 e).
Proof.
  destruct e as [m c r d a i rn ps].
  cbv -[VR4300CPU.execute_next_instruction]. destruct ps; [done|].
  by destruct (VR4300CPU.execute_next_instruction m c) as [[x|[]] c'].
Qed.

Lemma loop_S n e :
  loop (S n) e
  = if running e then
      match loop_body e with
      | (inr _, e') => loop n e'
      | (inl x, e') => (inl x, e')
      end
    else (inr tt, e).
Proof.
  simpl. run_method. destruct (running e); [|done].
  by destruct (loop_body e) as [[x|u] e'].
Qed.

Lemma set_cpu_same e : set_cpu (cpu e) e = e.
Proof. by destruct e. Qed.

Lemma set_pc_same (c : VR4300CPU.t) : VR4300CPU.set_pc (VR4300CPU.pc c) c = c.
Proof. by destruct c. Qed.

(** What a pass of the loop can change: the counter. *)
Lemma loop_body_frame e :
  ∃ p, (loop_body e).2 = set_cpu (VR4300CPU.set_pc p (cpu e)) e.
Proof.
  rewrite loop_body_run. destruct (paused e).
  - exists (VR4300CPU.pc (cpu e)). by rewrite set_pc_same, set_cpu_same.
  - simpl. destruct (step_regs_only (memory e) (cpu e)) as [p ->]. by exists p.
Qed.

Lemma loop_frame n e :
  ∃ p, (loop n e).2 = set_cpu (VR4300CPU.set_pc p (cpu e)) e.
Proof.
  revert e. induction n as [|n IH]; intros e.
  - exists (VR4300CPU.pc (cpu e)). simpl. by rewrite set_pc_same, set_cpu_same.
  - rewrite loop_S. destruct (running e).
    + destruct (loop_body_frame e) as [p Hp].
      destruct (loop_body e) as [[x|u] e1]; simpl in Hp; subst e1; [by exists p|].
      destruct (IH (set_cpu (VR4300CPU.set_pc p (cpu e)) e)) as [p' ->].
      exists p'. by destruct e as [m [rg pc0 c0] r d a i rn ps].
    + exists (VR4300CPU.pc (cpu e)). simpl. by rewrite set_pc_same, set_cpu_same.
Qed.

Lemma step_keeps_alignment (mem : Memory.t) (c : VR4300CPU.t) :
  VR4300CPU.pc c mod 4 = 0 ->
  VR4300CPU.pc (VR4300CPU.execute_next_instruction mem c).2 mod 4 = 0.
Proof.
  intros Hc. destruct (Memory.read32 mem (VR4300CPU.pc c)) as [x|instr] eqn:Hf.
  - by rewrite (execute_next_instruction_fault mem c x Hf).
  - rewrite (execute_next_instruction_fetch mem c instr Hf).
    assert (Hadv : (VR4300CPU.pc c + 4) mod 4 = 0).
    { replace (VR4300CPU.pc c + 4) with (VR4300CPU.pc c + 1 * 4) by lia.
      by rewrite Z.mod_add by lia. }
    unfold VR4300CPU._execute. destruct (_ =? 0); [done|].
    destruct (_ || _); [|done].
    simpl. apply jump_target_range.
Qed.

(** A run of passes that all fetch the word 0, which has opcode 0. *)
Lemma loop_fetching_zero n e :
  running e = true -> paused e = false ->
  (∀ k : nat, (k < n)%nat ->
     Memory.read32 (memory e) (VR4300CPU.pc (cpu e) + 4 * Z.of_nat k) = inr 0) ->
  loop n e
  = (inr tt, set_cpu (VR4300CPU.set_pc (VR4300CPU.pc (cpu e) + 4 * Z.of_nat n) (cpu e)) e).
Proof.
  revert e. induction n as [|n IH]; intros e Hrun Hps Hz.
  - simpl. rewrite Z.add_0_r. by rewrite set_pc_same, set_cpu_same.
  - rewrite loop_S, Hrun, loop_body_run, Hps.
    pose proof (Hz 0%nat ltac:(lia)) as H0. rewrite Z.add_0_r in H0.
    rewrite (execute_next_instruction_fetch _ _ 0 H0).
    change (VR4300CPU._execute 0 ?c) with c. simpl.
    rewrite IH.
    + destruct e as [m [rg pc0 c0] r d a i rn ps]. simpl.
      by replace (pc0 + 4 + 4 * Z.of_nat n) with (pc0 + 4 * Z.of_nat (S n)) by lia.
    + by destruct e.
    + by destruct e.
    + intros k Hk. specialize (Hz (S k) ltac:(lia)).
      destruct e as [m [rg pc0 c0] r d a i rn ps]. simpl in *.
      rewrite <- Hz. f_equal. lia.
Qed.

End LoopFacts.

(** X9. However many passes the loop makes and however it ends, it
    leaves RAM, the ROM, the general and coprocessor-0 registers, the RSP,
    the frame buffer, the audio buffer, the controllers and the two flags as
    they were: the program counter is all it can change. *)
Theorem loop_changes_counter_only (n : nat) (e : N64Emulator.t) :
  N64Emulator.memory (N64Emulator.loop n e).2 = N64Emulator.memory e ∧
  VR4300CPU.regs (N64Emulator.cpu (N64Emulator.loop n e).2)
  = VR4300CPU.regs (N64Emulator.cpu e) ∧
  VR4300CPU.cp0 (N64Emulator.cpu (N64Emulator.loop n e).2)
  = VR4300CPU.cp0 (N64Emulator.cpu e) ∧
  N64Emulator.rsp (N64Emulator.loop n e).2 = N64Emulator.rsp e ∧
  N64Emulator.rdp (N64Emulator.loop n e).2 = N64Emulator.rdp e ∧
  N64Emulator.audio (N64Emulator.loop n e).2 = N64Emulator.audio e ∧
  N64Emulator.input (N64Emulator.loop n e).2 = N64Emulator.input e ∧
  N64Emulator.running (N64Emulator.loop n e).2 = N64Emulator.running e ∧
  N64Emulator.paused (N64Emulator.loop n e).2 = N64Emulator.paused e.
Proof. destruct (loop_frame n e) as [p ->]. by repeat split. Qed.

(** X10. A program counter that is a multiple of 4 stays a multiple of 4
    through any number of passes of the loop. *)
Theorem loop_keeps_counter_aligned (n : nat) (e : N64Emulator.t) :
  VR4300CPU.pc (N64Emulator.cpu e) mod 4 = 0 ->
  VR4300CPU.pc (N64Emulator.cpu (N64Emulator.loop n e).2) mod 4 = 0.
Proof.
  revert e. induction n as [|n IH]; intros e He; [done|].
  rewrite loop_S. destruct (N64Emulator.running e); [|done].
  assert (H1 : VR4300CPU.pc (N64Emulator.cpu (N64Emulator.loop_body e).2) mod 4 = 0).
  { rewrite loop_body_run. destruct (N64Emulator.paused e); [done|].
    simpl. by apply step_keeps_alignment. }
  destruct (N64Emulator.loop_body e) as [[x|u] e1]; [done|]. by apply IH.
Qed.

Lemma loop_keeps_counter_aligned_witness :
  VR4300CPU.pc (N64Emulator.cpu (N64Emulator.loop 3 Small.emu_rom).2) mod 4 = 0.
Proof. apply (loop_keeps_counter_aligned 3 Small.emu_rom). reflexivity. Defined.

(** X11. While the emulator is paused, or once it is no longer running,
    passes of the loop execute nothing and leave it exactly as it is. *)
Theorem loop_idle (n : nat) (e : N64Emulator.t) :
  N64Emulator.running e = false ∨ N64Emulator.paused e = true ->
  N64Emulator.loop n e = (inr tt, e).
Proof.
  intros H. induction n as [|n IH]; [done|].
  rewrite loop_S. destruct (N64Emulator.running e) eqn:Hr; [|done].
  destruct H as [H|H]; [done|]. by rewrite loop_body_run, H.
Qed.

Lemma loop_idle_witness :
  N64Emulator.loop 5 (N64Emulator.pause Small.emu).2
  = (inr tt, (N64Emulator.pause Small.emu).2).
Proof. apply (loop_idle 5 (N64Emulator.pause Small.emu).2). right. reflexivity. Defined.

(** X12. [resume] after [pause] gives back the state [pause] was called
    in, when that state was not paused; and a [pause] or a [stop] called
    before [start] is lost, because [start] sets both flags itself. *)
Theorem pause_resume_start (e : N64Emulator.t) :
  (N64Emulator.paused e = false ->
   (N64Emulator.pause;; N64Emulator.resume) e = (inr tt, e)) ∧
  (∀ n, N64Emulator.start n (N64Emulator.pause e).2 = N64Emulator.start n e) ∧
  (∀ n, N64Emulator.start n (N64Emulator.stop e).2 = N64Emulator.start n e).
Proof.
  destruct e as [m c r d a i rn ps]. split; [|split].
  - simpl. by intros ->.
  - done.
  - done.
Qed.

Lemma pause_resume_start_witness :
  (N64Emulator.pause;; N64Emulator.resume) Small.emu = (inr tt, Small.emu).
Proof. apply (pause_resume_start Small.emu). reflexivity. Defined.

(** X13. With RAM that holds only zero bytes, a running, unpaused
    emulator whose next [n] fetches fall below the end of RAM makes [n]
    passes without raising, and they add [4 * n] to the counter and change
    nothing else. *)
Theorem loop_over_zero_ram (n : nat) (e : N64Emulator.t) :
  N64Emulator.running e = true -> N64Emulator.paused e = false ->
  Forall (λ b, b = x00) (Memory.ram (N64Emulator.memory e)) ->
  VR4300CPU.pc (N64Emulator.cpu e) + 4 * (Z.of_nat n - 1)
  < len (Memory.ram (N64Emulator.memory e)) ->
  N64Emulator.loop n e
  = (inr tt,
     N64Emulator.set_cpu
       (VR4300CPU.set_pc (VR4300CPU.pc (N64Emulator.cpu e) + 4 * Z.of_nat n)
          (N64Emulator.cpu e)) e).
Proof.
  intros Hrun Hps Hz Hlen. apply loop_fetching_zero; [done..|].
  intros k Hk. apply read32_zero_ram; [done | lia].
Qed.

Lemma loop_over_zero_ram_witness :
  N64Emulator.loop 4 Small.emu
  = (inr tt,
     N64Emulator.set_cpu
       (VR4300CPU.set_pc (VR4300CPU.pc (N64Emulator.cpu Small.emu) + 4 * Z.of_nat 4)
          (N64Emulator.cpu Small.emu)) Small.emu).
Proof.
  apply (loop_over_zero_ram 4 Small.emu);
    [reflexivity | reflexivity | by apply Forall_replicate | vm_compute; reflexivity].
Defined.

(** X14. After [reset], with a cartridge loaded that ends at or below the
    entry vector 0xA4000040 (at most 0x94000040 bytes) and RAM that ends at or
    below it, a running, unpaused emulator never fetches a byte of the
    cartridge: every fetch reads past its end and returns 0, so [n] passes
    never raise and leave the counter at [0xA4000040 + 4 * n]. *)
Theorem loop_after_reset (n : nat) (e : N64Emulator.t) (r : list byte) :
  N64Emulator.running e = true -> N64Emulator.paused e = false ->
  Memory.rom (N64Emulator.memory e) = Some r ->
  len r <= 0x94000040 -> len (Memory.ram (N64Emulator.memory e)) <= 0xA4000040 ->
  (N64Emulator.reset;; N64Emulator.loop n) e
  = (inr tt,
     N64Emulator.set_cpu
       (VR4300CPU.set_pc (0xA4000040 + 4 * Z.of_nat n)
          (N64Emulator.cpu (N64Emulator.reset e).2))
       (N64Emulator.reset e).2).
Proof.
  intros Hrun Hps Hrom Hr Hram. unfold mbind, M_bind. rewrite reset_run. simpl.
  rewrite loop_fetching_zero; [done..|].
  intros k Hk. simpl.
  rewrite (read32_cartridge _ r) by (done || simpl; lia).
  rewrite slice_beyond; [done|]. unfold Memory.cartridge_base. lia.
Qed.

Lemma loop_after_reset_witness :
  (N64Emulator.reset;; N64Emulator.loop 3) Small.emu_rom
  = (inr tt,
     N64Emulator.set_cpu
       (VR4300CPU.set_pc (0xA4000040 + 4 * Z.of_nat 3)
          (N64Emulator.cpu (N64Emulator.reset Small.emu_rom).2))
       (N64Emulator.reset Small.emu_rom).2).
Proof.
  apply (loop_after_reset 3 Small.emu_rom Small.cartridge);
    [reflexivity | reflexivity | reflexivity | vm_compute; congruence
    | vm_compute; congruence].
Defined.

(** X15. Without a cartridge, a running, unpaused emulator whose counter is
    at or beyond the end of RAM raises [AttributeError] at its next fetch
    and is left exactly as it was. *)
Theorem loop_without_cartridge (n : nat) (e : N64Emulator.t) :
  N64Emulator.running e = true -> N64Emulator.paused e = false ->
  Memory.rom (N64Emulator.memory e) = None ->
  len (Memory.ram (N64Emulator.memory e)) <= VR4300CPU.pc (N64Emulator.cpu e) ->
  N64Emulator.loop (S n) e = (inl (AttributeError "rom"), e).
Proof.
  intros Hrun Hps Hrom Hpc. rewrite loop_S, Hrun, loop_body_run, Hps.
  assert (Hf : Memory.read32 (N64Emulator.memory e) (VR4300CPU.pc (N64Emulator.cpu e))
               = inl (AttributeError "rom")).
  { unfold Memory.read32.
    destruct (Z.ltb_spec (VR4300CPU.pc (N64Emulator.cpu e))
                (len (Memory.ram (N64Emulator.memory e)))); [lia|].
    by rewrite Hrom. }
  rewrite (execute_next_instruction_fault _ _ _ Hf). simpl.
  by rewrite set_cpu_same.
Qed.

Lemma loop_without_cartridge_witness :
  N64Emulator.loop (S 2)
    (N64Emulator.set_cpu (VR4300CPU.set_pc 16 VR4300CPU.init) Small.emu)
  = (inl (AttributeError "rom"),
     N64Emulator.set_cpu (VR4300CPU.set_pc 16 VR4300CPU.init) Small.emu).
Proof.
  apply (loop_without_cartridge 2
           (N64Emulator.set_cpu (VR4300CPU.set_pc 16 VR4300CPU.init) Small.emu));
    [reflexivity | reflexivity | reflexivity | vm_compute; congruence].
Defined.

(** ** Further properties of reset, cartridges and state files *)

Section StateFiles.
Import N64Emulator.
Implicit Types (e : N64Emulator.t) (pickles : gmap string dict).

(** Loading a file that holds the sections captured from [e0], with or
    without the controllers: processor, RSP, audio buffer and RAM become
    those of [e0], the frame buffer too unless that one is empty; the ROM,
    the controllers and the flags are kept; and the lookup of the
    controllers, made last, decides the outcome. *)
Lemma load_state_sections e0 e pickles slot_name (oc : option (list Controller.dict)) :
  pickles !! state_path slot_name
  = Some {| k_cpu := k_cpu (get_state e0); k_rsp := k_rsp (get_state e0);
            k_rdp := k_rdp (get_state e0); k_audio := k_audio (get_state e0);
            k_memory := k_memory (get_state e0); k_controllers := oc |} ->
  load_state pickles slot_name e
  = (match oc with Some _ => inr tt | None => inl (KeyError "controllers") end,
     mk {| Memory.ram := Memory.ram (memory e0); Memory.rom := Memory.rom (memory e) |}
        (cpu e0) (rsp e0)
        (match RDP.framebuffer (rdp e0) with [] => rdp e | _ :: _ => rdp e0 end)
        (audio e0) (input e) (running e) (paused e)).
Proof.
  intros Hfile. unfold load_state. rewrite Hfile.
  destruct e0 as [m0 [rg0 p0 c0] [rr0] [fb0] [ab0] i0 rn0 ps0].
  destruct e as [m [rg p c] [rr] [fb] [ab] i rn ps].
  unfold VR4300CPU.set_state, RSP.set_state. run_method. simpl.
  rewrite !slice_all, slice_assign_all.
  unfold RDP.set_state. simpl.
  destruct fb0 as [|b fb0]; [by destruct oc|].
  rewrite slice_assign_all. by destruct oc.
Qed.

End StateFiles.

(** X16. [reset], from every state: the RSP registers are 32 zeros, the
    frame buffer keeps its size and holds only zero bytes, the audio buffer
    is empty; the coprocessor-0 registers, the controllers and the two flags
    are kept; and a second [reset] changes nothing more. *)
Theorem reset_components (e : N64Emulator.t) :
  ∃ e', N64Emulator.reset e = (inr tt, e') ∧
        RSP.regs (N64Emulator.rsp e') = replicate 32 0 ∧
        RDP.framebuffer (N64Emulator.rdp e')
        = replicate (length (RDP.framebuffer (N64Emulator.rdp e))) x00 ∧
        AudioSystem.audio_buffer (N64Emulator.audio e') = [] ∧
        VR4300CPU.cp0 (N64Emulator.cpu e') = VR4300CPU.cp0 (N64Emulator.cpu e) ∧
        N64Emulator.input e' = N64Emulator.input e ∧
        N64Emulator.running e' = N64Emulator.running e ∧
        N64Emulator.paused e' = N64Emulator.paused e ∧
        N64Emulator.reset e' = (inr tt, e').
Proof.
  eexists. split; [apply reset_run|]. repeat (split; [reflexivity|]).
  rewrite reset_run. simpl. unfold RDP.reset. simpl. by rewrite length_replicate.
Qed.

(** X17. [load_rom] of a path with no file raises [FileNotFoundError] and
    changes nothing; of a path with a file it makes the bytes of the file,
    as they are, the ROM, replacing any earlier one, and touches neither RAM
    nor the processor nor anything else: it does not reset the machine. *)
Theorem load_rom_sets_rom (files : gmap string (list byte)) (filepath : string)
    (e : N64Emulator.t) :
  (files !! filepath = None ->
   N64Emulator.load_rom files filepath e = (inl (FileNotFoundError filepath), e)) ∧
  (∀ data, files !! filepath = Some data ->
     N64Emulator.load_rom files filepath e
     = (inr tt,
        N64Emulator.set_memory
          {| Memory.ram := Memory.ram (N64Emulator.memory e); Memory.rom := Some data |} e)).
Proof.
  unfold N64Emulator.load_rom. run_method. split.
  - by intros ->.
  - by intros data ->.
Qed.

Lemma load_rom_sets_rom_witness :
  N64Emulator.load_rom {["game.z64" := Small.cartridge]} "game.z64" Small.emu
  = (inr tt,
     N64Emulator.set_memory
       {| Memory.ram := Memory.ram (N64Emulator.memory Small.emu);
          Memory.rom := Some Small.cartridge |} Small.emu).
Proof.
  apply (load_rom_sets_rom {["game.z64" := Small.cartridge]} "game.z64" Small.emu).
  apply lookup_singleton_eq.
Defined.

(** X18. [load_state] of a slot just written by [save_state] from a state
    [e0], run on any state [e], succeeds: processor, RSP, audio buffer and
    RAM (with its length) become those of [e0], and the frame buffer too
    unless that of [e0] is empty; the ROM, the controllers and the running
    and paused flags of [e] are kept. *)
Theorem load_state_restores (e0 e : N64Emulator.t)
    (pickles : gmap string N64Emulator.dict) (slot_name : string) :
  N64Emulator.load_state (N64Emulator.save_state slot_name e0 pickles) slot_name e
  = (inr tt,
     N64Emulator.mk
       {| Memory.ram := Memory.ram (N64Emulator.memory e0);
          Memory.rom := Memory.rom (N64Emulator.memory e) |}
       (N64Emulator.cpu e0) (N64Emulator.rsp e0)
       (match RDP.framebuffer (N64Emulator.rdp e0) with
        | [] => N64Emulator.rdp e
        | _ :: _ => N64Emulator.rdp e0
        end)
       (N64Emulator.audio e0) (N64Emulator.input e)
       (N64Emulator.running e) (N64Emulator.paused e)).
Proof.
  apply (load_state_sections e0 e _ slot_name
           (Some (InputManager.get_state (N64Emulator.input e0)))).
  apply lookup_insert_eq.
Qed.

(** X20. For the processor, the RSP and the audio system, [set_state] of
    what [get_state] captured, run on any instance, succeeds and leaves the
    captured instance. *)
Theorem component_state_roundtrip
    (c c' : VR4300CPU.t) (r r' : RSP.t) (a a' : AudioSystem.t) :
  VR4300CPU.set_state (VR4300CPU.get_state c) c' = (inr tt, c) ∧
  RSP.set_state (RSP.get_state r) r' = (inr tt, r) ∧
  AudioSystem.set_state (AudioSystem.get_state a) a' = a.
Proof.
  destruct c, c', r, r', a, a'.
  unfold VR4300CPU.set_state, RSP.set_state, AudioSystem.set_state. run_method. simpl.
  by rewrite !slice_all.
Qed.

(** X21. The processor's [set_state] on a dictionary with keys missing:
    without ["regs"] it raises [KeyError] and changes nothing; with
    ["regs"] and without ["pc"] it raises [KeyError] after the registers
    have been replaced; with both and without ["cp0"] it succeeds and the
    coprocessor-0 registers become the empty dictionary. *)
Theorem cpu_set_state_missing_keys (state : VR4300CPU.dict) (c : VR4300CPU.t) :
  (VR4300CPU.k_regs state = None ->
   VR4300CPU.set_state state c = (inl (KeyError "regs"), c)) ∧
  (∀ r, VR4300CPU.k_regs state = Some r -> VR4300CPU.k_pc state = None ->
        VR4300CPU.set_state state c = (inl (KeyError "pc"), VR4300CPU.set_regs r c)) ∧
  (∀ r p, VR4300CPU.k_regs state = Some r -> VR4300CPU.k_pc state = Some p ->
          VR4300CPU.k_cp0 state = None ->
          VR4300CPU.set_state state c
          = (inr tt, {| VR4300CPU.regs := r; VR4300CPU.pc := p; VR4300CPU.cp0 := ∅ |})).
Proof.
  destruct state as [orr op oc]. unfold VR4300CPU.set_state. run_method. simpl.
  split; [by intros ->|]. split.
  - intros r -> ->. simpl. by rewrite slice_all.
  - intros r p -> -> ->. simpl. by rewrite slice_all.
Qed.

Lemma cpu_set_state_missing_keys_witness :
  VR4300CPU.set_state (VR4300CPU.Dict (Some [1; 2; 3]) None None) VR4300CPU.init
  = (inl (KeyError "pc"), VR4300CPU.set_regs [1; 2; 3] VR4300CPU.init).
Proof.
  apply (cpu_set_state_missing_keys (VR4300CPU.Dict (Some [1; 2; 3]) None None)
           VR4300CPU.init); reflexivity.
Defined.

(** X22. The ["controllers"] section is read last and its content is
    ignored, yet it must be there: on a file that holds every captured
    section of [e0] but that one, [load_state] raises [KeyError] after it
    has restored processor, RSP, frame buffer, audio buffer and RAM. *)
Theorem load_state_needs_controllers (e0 e : N64Emulator.t)
    (pickles : gmap string N64Emulator.dict) (slot_name : string) :
  pickles !! N64Emulator.state_path slot_name
  = Some {| N64Emulator.k_cpu := Some (VR4300CPU.get_state (N64Emulator.cpu e0));
            N64Emulator.k_rsp := Some (RSP.get_state (N64Emulator.rsp e0));
            N64Emulator.k_rdp := Some (RDP.get_state (N64Emulator.rdp e0));
            N64Emulator.k_audio := Some (AudioSystem.get_state (N64Emulator.audio e0));
            N64Emulator.k_memory := Some (Memory.ram (N64Emulator.memory e0));
            N64Emulator.k_controllers := None |} ->
  N64Emulator.load_state pickles slot_name e
  = (inl (KeyError "controllers"),
     N64Emulator.mk
       {| Memory.ram := Memory.ram (N64Emulator.memory e0);
          Memory.rom := Memory.rom (N64Emulator.memory e) |}
       (N64Emulator.cpu e0) (N64Emulator.rsp e0)
       (match RDP.framebuffer (N64Emulator.rdp e0) with
        | [] => N64Emulator.rdp e
        | _ :: _ => N64Emulator.rdp e0
        end)
       (N64Emulator.audio e0) (N64Emulator.input e)
       (N64Emulator.running e) (N64Emulator.paused e)).
Proof. intros Hfile. by apply (load_state_sections e0 e pickles slot_name None). Qed.

Lemma load_state_needs_controllers_witness :
  N64Emulator.load_state
    {[ N64Emulator.state_path "s" :=
         {| N64Emulator.k_cpu := Some (VR4300CPU.get_state (N64Emulator.cpu Small.emu_rom));
            N64Emulator.k_rsp := Some (RSP.get_state (N64Emulator.rsp Small.emu_rom));
            N64Emulator.k_rdp := Some (RDP.get_state (N64Emulator.rdp Small.emu_rom));
            N64Emulator.k_audio :=
              Some (AudioSystem.get_state (N64Emulator.audio Small.emu_rom));
            N64Emulator.k_memory := Some (Memory.ram (N64Emulator.memory Small.emu_rom));
            N64Emulator.k_controllers := None |} ]} "s" Small.emu
  = (inl (KeyError "controllers"),
     N64Emulator.mk
       {| Memory.ram := Memory.ram (N64Emulator.memory Small.emu_rom);
          Memory.rom := Memory.rom (N64Emulator.memory Small.emu) |}
       (N64Emulator.cpu Small.emu_rom) (N64Emulator.rsp Small.emu_rom)
       (match RDP.framebuffer (N64Emulator.rdp Small.emu_rom) with
        | [] => N64Emulator.rdp Small.emu
        | _ :: _ => N64Emulator.rdp Small.emu_rom
        end)
       (N64Emulator.audio Small.emu_rom) (N64Emulator.input Small.emu)
       (N64Emulator.running Small.emu) (N64Emulator.paused Small.emu)).
Proof.
  apply (load_state_needs_controllers Small.emu_rom Small.emu). apply lookup_singleton_eq.
Defined.

(** ** Running off the end of RAM, and what never touches the ROM *)

Section Composition.
Import N64Emulator.
Implicit Types (e : N64Emulator.t) (n : nat).

(** Passes that fetch the word 0 until a fetch raises. *)
Lemma loop_until_fault n j e x :
  running e = true -> paused e = false ->
  (∀ k : nat, (k < n)%nat ->
     Memory.read32 (memory e) (VR4300CPU.pc (cpu e) + 4 * Z.of_nat k) = inr 0) ->
  Memory.read32 (memory e) (VR4300CPU.pc (cpu e) + 4 * Z.of_nat n) = inl x ->
  loop (n + S j) e
  = (inl x, set_cpu (VR4300CPU.set_pc (VR4300CPU.pc (cpu e) + 4 * Z.of_nat n) (cpu e)) e).
Proof.
  revert e. induction n as [|n IH]; intros e Hrun Hps Hz Hx.
  - rewrite Z.add_0_r in *. change (0 + S j)%nat with (S j).
    rewrite loop_S, Hrun, loop_body_run, Hps.
    rewrite (execute_next_instruction_fault _ _ _ Hx). simpl.
    by rewrite set_pc_same.
  - change (S n + S j)%nat with (S (n + S j)).
    rewrite loop_S, Hrun, loop_body_run, Hps.
    pose proof (Hz 0%nat ltac:(lia)) as H0. rewrite Z.add_0_r in H0.
    rewrite (execute_next_instruction_fetch _ _ 0 H0).
    change (VR4300CPU._execute 0 ?c) with c. simpl.
    destruct e as [m [rg pc0 c0] r d a i rn ps]. simpl in *.
    rewrite IH; simpl; try done.
    + by replace (pc0 + 4 + 4 * Z.of_nat n) with (pc0 + 4 * Z.of_nat (S n)) by lia.
    + intros k Hk. rewrite <- (Hz (S k) ltac:(lia)). f_equal. lia.
    + rewrite <- Hx. f_equal. lia.
Qed.



End Composition.

(** X23. A running, unpaused emulator without a cartridge, on RAM that
    holds only zero bytes, with [n] fetches left before its counter reaches
    the end of RAM: the loop makes those [n] passes, each adding 4 to the
    counter, and the next fetch raises [AttributeError]; the emulator is left
    with the counter at the address of that fetch and nothing else changed. *)
Theorem loop_runs_off_ram (n j : nat) (e : N64Emulator.t) :
  N64Emulator.running e = true -> N64Emulator.paused e = false ->
  Memory.rom (N64Emulator.memory e) = None ->
  Forall (λ b, b = x00) (Memory.ram (N64Emulator.memory e)) ->
  VR4300CPU.pc (N64Emulator.cpu e) + 4 * (Z.of_nat n - 1)
  < len (Memory.ram (N64Emulator.memory e))
  <= VR4300CPU.pc (N64Emulator.cpu e) + 4 * Z.of_nat n ->
  N64Emulator.loop (n + S j) e
  = (inl (AttributeError "rom"),
     N64Emulator.set_cpu
       (VR4300CPU.set_pc (VR4300CPU.pc (N64Emulator.cpu e) + 4 * Z.of_nat n)
          (N64Emulator.cpu e)) e).
Proof.
  intros Hrun Hps Hrom Hz Hlen. apply loop_until_fault; [done..| |].
  - intros k Hk. apply read32_zero_ram; [done | lia].
  - unfold Memory.read32.
    destruct (Z.ltb_spec (VR4300CPU.pc (N64Emulator.cpu e) + 4 * Z.of_nat n)
                (len (Memory.ram (N64Emulator.memory e)))); [lia|].
    by rewrite Hrom.
Qed.

Lemma loop_runs_off_ram_witness :
  N64Emulator.loop (4 + S 0) Small.emu
  = (inl (AttributeError "rom"),
     N64Emulator.set_cpu
       (VR4300CPU.set_pc (VR4300CPU.pc (N64Emulator.cpu Small.emu) + 4 * Z.of_nat 4)
          (N64Emulator.cpu Small.emu)) Small.emu).
Proof.
  apply (loop_runs_off_ram 4 0 Small.emu);
    [reflexivity | reflexivity | reflexivity | by apply Forall_replicate
    | vm_compute; split; congruence].
Defined.

